(** * The Chart Manager controller: reconciliation handlers, convergence wait,
      status write and lifecycle

    A shallow embedding of [pkg/controller/controller.go].  The Go code is
    sequential inside each goroutine; every function of the file becomes a
    computation in a small state monad over a [World] that holds the
    monotonic clock, the heap of in-memory [ChartManager] objects and the
    trace of everything the goroutine did to the outside (log lines, helm
    calls, readiness checks, ticks received, PUT requests, goroutines
    started).  A computation ends by returning, by panicking (nil dereference,
    failed type assertion) or by blocking for ever on a channel.  The one loop
    of the file is run on fuel, and shown never to run out of it. *)

From Stdlib Require Import ZArith String List Lia.
From stdpp Require Import base list strings.

Local Open Scope Z_scope.

(** ** Durations (package [time]): an [int64] count of nanoseconds.  The
    only durations of this file are [2 * time.Minute] and [30 * time.Second],
    far inside the [int64] range. *)
Module time.
Definition Duration := Z.
Definition Nanosecond : Duration := 1.
Definition Microsecond : Duration := 1000 * Nanosecond.
Definition Millisecond : Duration := 1000 * Microsecond.
Definition Second : Duration := 1000 * Millisecond.
Definition Minute : Duration := 60 * Second.
End time.

(** ** The resource ([crv1alpha1.ChartManager]) *)

(** [crv1alpha1.ChartMgrState] is a string type: the code converts it with
    [string(rls.Status())] and prints it with [%s]. *)
Definition ChartMgrState := string.

Record ChartMgrStatus := mkStatus {
  State : ChartMgrState;
  ReleaseName : string;
  Message : string
}.

Record ObjectMeta := mkMeta {
  Name : string;
  Namespace : string
}.

(** The chart specification is never inspected by the controller file; it is
    carried along as an opaque document. *)
Record ChartManager := mkChartManager {
  Meta : ObjectMeta;
  Spec : string;
  Status : ChartMgrStatus
}.

(** [chartmgrCopy.Status = ...]: assignment to the [Status] field. *)
Definition withStatus (cm : ChartManager) (s : ChartMgrStatus) : ChartManager :=
  {| Meta := Meta cm; Spec := Spec cm; Status := s |}.

(** A Go [error]: [None] is [nil], [Some msg] an error whose [Error()] text
    is [msg]. *)
Definition error := option string.

(** An answer of an outside party (helm, the API server) together with the
    time the call took. *)
Record Reply (A : Type) := mkReply {
  answer : A;
  took : N
}.
Arguments mkReply {A} _ _.
Arguments answer {A} _.
Arguments took {A} _.

(** Modelled from the spec: the package [lmhelm] is not part of the sources.
    A release handle offers [name()], [status()] and [deployed()]; the status
    is the currently reported one and readiness is a query to the executor, so
    both depend on the time of the call, and a readiness query takes time.
    [*lmhelm.Release] is a pointer: [None] is the nil handle.  What the
    methods do on a nil receiver is not in the sources either; here a call
    through nil panics, an assumption that no statement about a handle that
    is there rests on. *)
Record Release := mkRelease {
  rlsName : string;
  rlsStatus : Z -> ChartMgrState;
  rlsDeployed : Z -> Reply bool
}.

(** Pointers to [ChartManager] objects: positions in the heap. *)
Abbreviation ptr := nat (only parsing).

(** An [interface{}] value handed over by the informer. *)
Inductive Obj :=
| ObjChartManager (p : ptr)
| ObjOther (type_name : string).

Inductive Level := Debug | Info | Error.

Inductive Goroutine :=
| InformerRun (resource namespace : string) (resync : Z) (stop : option Z).

Inductive Event :=
| ELog (lvl : Level) (msg : string)
| ECreateOrUpdate (chartmgr : ChartManager)
| EDelete (chartmgr : ChartManager)
| EDeployed (release : string) (at_time : Z) (ready : bool)
| ETick (at_time : Z)
| EPut (name namespace resource : string) (body : ChartManager)
| EGo (g : Goroutine).

Record World := mkWorld {
  clock : Z;
  heap : list ChartManager;
  trace : list Event
}.

(** ** What the controller talks to *)
Record Env := mkEnv {
  (** [CreateOrUpdateChartMgr] and [DeleteChartMgr] live in a sibling file of
      the package that is not part of the sources; their answer for a
      resource at a time is a parameter. *)
  helmCreateOrUpdate : ChartManager -> Z -> Reply (option Release * error);
  helmDelete : ChartManager -> Z -> Reply (option Release * error);
  (** [lmhelm.CreateOnly] *)
  isCreateOnly : ChartManager -> bool;
  (** [RESTClient.Put()...Do().Error()]: the answer of the API server to a
      replace request, given name, namespace, collection, body and time. *)
  restPut : string -> string -> string -> ChartManager -> Z -> Reply error;
  (** [crv1alpha1.ChartMgrResourcePlural] *)
  ChartMgrResourcePlural : string
}.

(** ** The monad *)

(** How a computation ends: it returns [a], it panics, it blocks for ever on
    a channel receive, or (the wait loop only) it runs out of fuel.  Each
    outcome carries the world at that moment. *)
Inductive outcome (A : Type) :=
| Ret (a : A) (w : World)
| Panic (w : World)
| Blocked (w : World)
| Exhausted (w : World).
Arguments Ret {A} _ _.
Arguments Panic {A} _.
Arguments Blocked {A} _.
Arguments Exhausted {A} _.

Definition M (A : Type) := World -> outcome A.

#[global] Instance M_ret : MRet M := fun A a w => Ret a w.

#[global] Instance M_bind : MBind M := fun A B f m w =>
  match m w with
  | Ret a w' => f a w'
  | Panic w' => Panic w'
  | Blocked w' => Blocked w'
  | Exhausted w' => Exhausted w'
  end.

Definition panic {A} : M A := fun w => Panic w.
Definition block {A} : M A := fun w => Blocked w.
Definition exhausted {A} : M A := fun w => Exhausted w.

Definition emit (e : Event) : M unit := fun w =>
  Ret tt {| clock := clock w; heap := heap w; trace := trace w ++ [e] |}.

Definition now : M Z := fun w => Ret (clock w) w.

(** Time passes: by a duration, or until an instant (never backwards). *)
Definition elapse (d : N) : M unit := fun w =>
  Ret tt {| clock := clock w + Z.of_N d; heap := heap w; trace := trace w |}.

Definition sleepUntil (t : Z) : M unit := fun w =>
  Ret tt {| clock := Z.max (clock w) t; heap := heap w; trace := trace w |}.

(** Reading through a pointer; a pointer outside the heap cannot be read. *)
Definition load (p : ptr) : M ChartManager := fun w =>
  match heap w !! p with
  | Some cm => Ret cm w
  | None => Panic w
  end.

Definition alloc (cm : ChartManager) : M ptr := fun w =>
  Ret (length (heap w)) {| clock := clock w; heap := heap w ++ [cm]; trace := trace w |}.

Definition store (p : ptr) (cm : ChartManager) : M unit := fun w =>
  match heap w !! p with
  | Some _ => Ret tt {| clock := clock w; heap := <[p := cm]> (heap w); trace := trace w |}
  | None => Panic w
  end.

(** [log.Debugf], [log.Infof], [log.Errorf] with the message already
    formatted. *)
Definition log (lvl : Level) (msg : string) : M unit := emit (ELog lvl msg).

(** ** Methods of the release handle *)
Definition Release_Name (rls : option Release) : M string :=
  match rls with
  | Some r => mret (rlsName r)
  | None => panic
  end.

Definition Release_Status (rls : option Release) : M ChartMgrState :=
  match rls with
  | Some r => t ← now; mret (rlsStatus r t)
  | None => panic
  end.

Definition Release_Deployed (rls : option Release) : M bool :=
  match rls with
  | Some r =>
      t ← now;
      let reply := rlsDeployed r t in
      emit (EDeployed (rlsName r) t (answer reply));;
      elapse (took reply);;
      mret (answer reply)
  | None => panic
  end.

(** Modelled from the spec: [DeepCopy] is generated code
    ([zz_generated.deepcopy.go]) that is not part of the sources; it produces
    a copy of the resource: a new object with the contents of the
    original. *)
Definition DeepCopy (p : ptr) : M ptr :=
  cm ← load p;
  alloc cm.

(** ** Timers and tickers (package [time]) *)

(** [time.After d]: a channel that becomes ready [d] after its creation. *)
Record Timer := mkTimer { deadline : Z }.

Definition After (d : time.Duration) : M Timer :=
  t ← now; mret {| deadline := t + d |}.

(** The [case <-timeout:] of a [select] with a [default]: taken exactly when
    the timer has fired. *)
Definition fired (tm : Timer) : M bool :=
  t ← now; mret (deadline tm <=? t).

(** [time.NewTicker d] ticks at [origin + k * d], [k >= 1], into a channel
    that holds one tick; ticks that find the channel full are dropped.
    [lastRecv] is the instant of the last receive (of the creation, before
    the first one): the channel has been empty since. *)
Record Ticker := mkTicker {
  origin : Z;
  period : time.Duration;
  lastRecv : Z
}.

Definition NewTicker (d : time.Duration) : M Ticker :=
  if d <=? 0 then panic
  else t ← now; mret {| origin := t; period := d; lastRecv := t |}.

(** The first tick after the last receive. *)
Definition nextTick (tk : Ticker) : Z :=
  origin tk + period tk * ((lastRecv tk - origin tk) / period tk + 1).

(** [<-ticker.C]: returns at once if a tick is waiting in the channel,
    otherwise at the next tick. *)
Definition recvTick (tk : Ticker) : M Ticker :=
  t ← now;
  let wake := Z.max t (nextTick tk) in
  sleepUntil wake;;
  emit (ETick wake);;
  mret {| origin := origin tk; period := period tk; lastRecv := wake |}.

(** ** The controller *)

(** The type assertion of [obj] to a pointer to [crv1alpha1.ChartManager]:
    it panics on a value of another type. *)
Definition assertChartManager (obj : Obj) : M ptr :=
  match obj with
  | ObjChartManager p => mret p
  | ObjOther _ => panic
  end.

(** [chartmgr.Name]: the promoted field of the embedded [ObjectMeta]. *)
Definition chartmgrName (chartmgr : ptr) : M string :=
  cm ← load chartmgr; mret (Name (Meta cm)).

(** The two executor entry points: the resource is read through the pointer,
    the call is recorded, and the executor answers after a while. *)
Definition CreateOrUpdateChartMgr (c : Env) (chartmgr : ptr) : M (option Release * error) :=
  cm ← load chartmgr;
  t ← now;
  let reply := helmCreateOrUpdate c cm t in
  emit (ECreateOrUpdate cm);;
  elapse (took reply);;
  mret (answer reply).

Definition DeleteChartMgr (c : Env) (chartmgr : ptr) : M (option Release * error) :=
  cm ← load chartmgr;
  t ← now;
  let reply := helmDelete c cm t in
  emit (EDelete cm);;
  elapse (took reply);;
  mret (answer reply).

(** [lmhelm.CreateOnly(newChartMgr)] *)
Definition CreateOnly (c : Env) (chartmgr : ptr) : M bool :=
  cm ← load chartmgr; mret (isCreateOnly c cm).

Definition put (c : Env) (chartmgr : ptr) : M error :=
  cm ← load chartmgr;
  t ← now;
  let name := Name (Meta cm) in
  let namespace := Namespace (Meta cm) in
  let reply := restPut c name namespace (ChartMgrResourcePlural c) cm t in
  emit (EPut name namespace (ChartMgrResourcePlural c) cm);;
  elapse (took reply);;
  mret (answer reply).

Definition updateChartMgrStatus (c : Env) (chartmgr : ptr) (rls : option Release)
    (message : string) : M unit :=
  st ← Release_Status rls;
  nm ← Release_Name rls;
  log Debug ("Updating Chart Manager status: state=" +:+ st +:+ " release=" +:+ nm);;
  chartmgrCopy ← DeepCopy chartmgr;
  state ← Release_Status rls;
  releaseName ← Release_Name rls;
  cm ← load chartmgrCopy;
  store chartmgrCopy
    (withStatus cm {| State := state; ReleaseName := releaseName; Message := message |});;
  err ← put c chartmgrCopy;
  match err with
  | Some e => log Error ("Failed to update status: " +:+ e)
  | None => mret tt
  end.

Definition timedOut : string := "Timed out waiting for release to deploy".

(** The loop [for c := ticker.C; ; <-c { select { ... } }]: the body runs
    first, the receive from the ticker is the post statement.  [fuel] bounds
    the number of passes. *)
Fixpoint waitLoop (fuel : nat) (rls : option Release) (timeout : Timer) (ticker : Ticker)
    : M error :=
  match fuel with
  | O => exhausted
  | S fuel' =>
      expired ← fired timeout;
      if expired : bool then mret (Some timedOut)
      else
        nm ← Release_Name rls;
        log Debug ("Checking status of release " +:+ nm);;
        ready ← Release_Deployed rls;
        if ready : bool then mret None
        else
          ticker' ← recvTick ticker;
          waitLoop fuel' rls timeout ticker'
  end.

(** Passes the loop can make: one per tick up to the deadline, and the first
    one. *)
Definition waitFuel : nat := Z.to_nat (2 * time.Minute / (30 * time.Second)) + 1.

Definition waitForReleaseToDeploy (rls : option Release) : M error :=
  timeout ← After (2 * time.Minute);
  ticker ← NewTicker (30 * time.Second);
  waitLoop waitFuel rls timeout ticker.

Definition updateStatus (c : Env) (chartmgr : ptr) (rls : option Release) : M error :=
  err ← waitForReleaseToDeploy rls;
  match err with
  | Some e =>
      nm ← Release_Name rls;
      log Error ("Failed to verify that release " +:+ nm +:+ " deployed: " +:+ e);;
      updateChartMgrStatus c chartmgr rls e;;
      mret err
  | None =>
      name ← chartmgrName chartmgr;
      nm ← Release_Name rls;
      log Info ("Chart Manager " +:+ name +:+ " release " +:+ nm +:+ " status is Deployed");;
      st ← Release_Status rls;
      updateChartMgrStatus c chartmgr rls st;;
      mret err
  end.

(** The handlers.  Each one is [go func(...) { ... }(...)]: the call returns
    at once and the body below runs as a goroutine of its own. *)
Definition addFunc (c : Env) (obj : Obj) : M unit :=
  chartmgr ← assertChartManager obj;
  '(rls, err) ← CreateOrUpdateChartMgr c chartmgr;
  match err with
  | Some e =>
      log Error e;;
      updateChartMgrStatus c chartmgr rls e
  | None =>
      err ← updateStatus c chartmgr rls;
      match err with
      | Some _ => mret tt
      | None =>
          name ← chartmgrName chartmgr;
          st ← Release_Status rls;
          log Info ("Chart Manager " +:+ name +:+ " status is " +:+ st);;
          name ← chartmgrName chartmgr;
          log Info ("Created Chart Manager: " +:+ name)
      end
  end.

Definition updateFunc (c : Env) (oldObj newObj : Obj) : M unit :=
  _ ← assertChartManager oldObj;
  newChartMgr ← assertChartManager newObj;
  '(rls, err) ← CreateOrUpdateChartMgr c newChartMgr;
  match err with
  | Some e =>
      log Error e;;
      updateChartMgrStatus c newChartMgr rls e
  | None =>
      createOnly ← CreateOnly c newChartMgr;
      if createOnly : bool then
        name ← chartmgrName newChartMgr;
        log Info ("CreateOnly mode. Ignoring update of chart manager " +:+ name +:+ ".")
      else
        err ← updateStatus c newChartMgr rls;
        match err with
        | Some _ => mret tt
        | None =>
            name ← chartmgrName newChartMgr;
            log Info ("Updated Chart Manager: " +:+ name)
        end
  end.

Definition deleteFunc (c : Env) (obj : Obj) : M unit :=
  chartmgr ← assertChartManager obj;
  '(_, err) ← DeleteChartMgr c chartmgr;
  match err with
  | Some e => log Error ("Failed to delete Chart Manager: " +:+ e)
  | None =>
      name ← chartmgrName chartmgr;
      log Info ("Deleted Chart Manager: " +:+ name)
  end.

(** ** Lifecycle *)

(** A [context.Context] of the standard library: [Done] is closed at
    [doneAt] (never, for [None]); [Err] is [nil] while [Done] is open and the
    reason afterwards: [context.Canceled] when the cancel function was called,
    [context.DeadlineExceeded] when the context's own deadline passed. *)
Inductive ContextError := Canceled | DeadlineExceeded.

Definition ContextError_Error (e : ContextError) : string :=
  match e with
  | Canceled => "context canceled"
  | DeadlineExceeded => "context deadline exceeded"
  end.

Record Context := mkContext {
  doneAt : option Z;
  doneErr : ContextError
}.

(** [<-ctx.Done()] *)
Definition recvDone (ctx : Context) : M unit :=
  match doneAt ctx with
  | Some t => sleepUntil t
  | None => block
  end.

(** [ctx.Err()] *)
Definition Context_Err (ctx : Context) : M error :=
  t ← now;
  match doneAt ctx with
  | Some t0 => if t0 <=? t then mret (Some (ContextError_Error (doneErr ctx))) else mret None
  | None => mret None
  end.

(** [apiv1.NamespaceAll] *)
Definition NamespaceAll : string := "".

(** [cache.NewInformer] only builds the informer; [go controller.Run(ctx.Done())]
    starts it, with the context's [Done] channel as stop channel. *)
Definition manage (c : Env) (ctx : Context) : M error :=
  emit (EGo (InformerRun (ChartMgrResourcePlural c) NamespaceAll 0 (doneAt ctx)));;
  mret None.

Definition Run (c : Env) (ctx : Context) : M error :=
  err ← manage c ctx;
  match err with
  | Some e => mret (Some e)
  | None =>
      log Info "Successfully started Chart Manager controller";;
      recvDone ctx;;
      Context_Err ctx
  end.

(** The events of the watch and the handler each one reaches through
    [cache.ResourceEventHandlerFuncs]. *)
Inductive WatchEvent :=
| Added (obj : Obj)
| Updated (oldObj newObj : Obj)
| Deleted (obj : Obj).

Definition dispatch (c : Env) (ev : WatchEvent) : M unit :=
  match ev with
  | Added obj => addFunc c obj
  | Updated oldObj newObj => updateFunc c oldObj newObj
  | Deleted obj => deleteFunc c obj
  end.

(** ** Reading a trace *)
Definition isPut (e : Event) : bool :=
  match e with EPut _ _ _ _ => true | _ => false end.

Definition isDeployedCheck (e : Event) : bool :=
  match e with EDeployed _ _ _ => true | _ => false end.

(** The PUT requests of a trace, in order. *)
Definition statusWrites (tr : list Event) : list Event := List.filter isPut tr.

(** The readiness checks of a trace, in order. *)
Definition readinessChecks (tr : list Event) : list Event := List.filter isDeployedCheck tr.

(** The request a status write for [cm] sends: the resource with its status
    replaced by the handle's state and name at time [t] and the message. *)
Definition statusWrite (c : Env) (cm : ChartManager) (r : Release) (t : Z) (message : string)
    : Event :=
  EPut (Name (Meta cm)) (Namespace (Meta cm)) (ChartMgrResourcePlural c)
    (withStatus cm {| State := rlsStatus r t; ReleaseName := rlsName r; Message := message |}).

(** What the wait loop for [r] with deadline [dl] may emit: its debug line,
    ticks, and readiness checks of [r] made before the deadline, each
    recorded with the answer [r] gave. *)
Definition waitEvent (r : Release) (dl : Z) (e : Event) : Prop :=
  match e with
  | ELog Debug msg => msg = "Checking status of release " +:+ rlsName r
  | ETick _ => True
  | EDeployed nm t b => nm = rlsName r /\ t < dl /\ b = answer (rlsDeployed r t)
  | _ => False
  end.

(** No readiness check of the trace was answered with [true]. *)
Definition notReady (e : Event) : Prop :=
  match e with
  | EDeployed _ _ true => False
  | _ => True
  end.

Definition checkTime (e : Event) : option Z :=
  match e with EDeployed _ t _ => Some t | _ => None end.

(** The instants of the readiness checks of a trace, in order. *)
Definition checkTimes (tr : list Event) : list Z := omap checkTime tr.

(** [m] instants, one every [d], from [start] on. *)
Fixpoint every (d : Z) (start : Z) (m : nat) : list Z :=
  match m with
  | O => []
  | S m' => start :: every d (start + d) m'
  end.

(** ** The worlds the functions lead to *)

(** After one readiness check of [r]. *)
Definition afterCheck (r : Release) (w : World) : World :=
  let reply := rlsDeployed r (clock w) in
  {| clock := clock w + Z.of_N (took reply);
     heap := heap w;
     trace := trace w ++
       [ELog Debug ("Checking status of release " +:+ rlsName r);
        EDeployed (rlsName r) (clock w) (answer reply)] |}.

(** After a receive from the ticker. *)
Definition afterTick (tk : Ticker) (w : World) : World :=
  let wake := Z.max (clock w) (nextTick tk) in
  {| clock := wake; heap := heap w; trace := trace w ++ [ETick wake] |}.

Definition received (tk : Ticker) (w : World) : Ticker :=
  {| origin := origin tk; period := period tk;
     lastRecv := Z.max (clock w) (nextTick tk) |}.

(** After a status write for the resource [cm] with handle [r]. *)
Definition afterStatusWrite (c : Env) (cm : ChartManager) (r : Release) (message : string)
    (w : World) : World :=
  let body := withStatus cm {| State := rlsStatus r (clock w); ReleaseName := rlsName r;
                               Message := message |} in
  let reply := restPut c (Name (Meta cm)) (Namespace (Meta cm)) (ChartMgrResourcePlural c)
                 body (clock w) in
  {| clock := clock w + Z.of_N (took reply);
     heap := heap w ++ [body];
     trace := trace w ++
       [ELog Debug ("Updating Chart Manager status: state=" +:+ rlsStatus r (clock w)
                    +:+ " release=" +:+ rlsName r);
        statusWrite c cm r (clock w) message] ++
       match answer reply with
       | Some e => [ELog Error ("Failed to update status: " +:+ e)]
       | None => []
       end |}.

(** The line [updateStatus] logs once the wait is over. *)
Definition waitVerdict (cm : ChartManager) (r : Release) (err : error) : Event :=
  match err with
  | Some e =>
      ELog Error ("Failed to verify that release " +:+ rlsName r +:+ " deployed: " +:+ e)
  | None =>
      ELog Info ("Chart Manager " +:+ Name (Meta cm) +:+ " release " +:+ rlsName r
                 +:+ " status is Deployed")
  end.

(** The message [updateStatus] hands to the status write at time [t]. *)
Definition statusMessage (r : Release) (err : error) (t : Z) : string :=
  match err with
  | Some e => e
  | None => rlsStatus r t
  end.

(** After [updateStatus], when the wait ended in [w1] with [err]. *)
Definition afterUpdateStatus (c : Env) (cm : ChartManager) (r : Release) (err : error)
    (w1 : World) : World :=
  afterStatusWrite c cm r (statusMessage r err (clock w1))
    {| clock := clock w1; heap := heap w1; trace := trace w1 ++ [waitVerdict cm r err] |}.

(** After the executor was called for [cm] and, on an error, the error was
    logged. *)
Definition afterApply (c : Env) (cm : ChartManager) (w : World) : World :=
  let reply := helmCreateOrUpdate c cm (clock w) in
  {| clock := clock w + Z.of_N (took reply);
     heap := heap w;
     trace := trace w ++ ECreateOrUpdate cm ::
       match snd (answer reply) with
       | Some e => [ELog Error e]
       | None => []
       end |}.

(** The closing lines of [addFunc] and of [updateFunc]: logged only when
    [updateStatus] returned no error. *)
Definition afterAdd (cm : ChartManager) (r : Release) (err : error) (w2 : World) : World :=
  match err with
  | Some _ => w2
  | None =>
      {| clock := clock w2; heap := heap w2;
         trace := trace w2 ++
           [ELog Info ("Chart Manager " +:+ Name (Meta cm) +:+ " status is "
                       +:+ rlsStatus r (clock w2));
            ELog Info ("Created Chart Manager: " +:+ Name (Meta cm))] |}
  end.

Definition afterUpdate (cm : ChartManager) (err : error) (w2 : World) : World :=
  match err with
  | Some _ => w2
  | None =>
      {| clock := clock w2; heap := heap w2;
         trace := trace w2 ++ [ELog Info ("Updated Chart Manager: " +:+ Name (Meta cm))] |}
  end.

(** The world an outcome ends in. *)
Definition worldOf {A} (o : outcome A) : World :=
  match o with
  | Ret _ w => w
  | Panic w => w
  | Blocked w => w
  | Exhausted w => w
  end.

(** What the wait loop needs to finish with [n] passes left: a ticker that
    ticks, a clock that is not behind the ticker, and the deadline no more
    than [n - 1] ticks after the last tick received. *)
Record loopInv (tm : Timer) (tk : Ticker) (w : World) (n : nat) : Prop := {
  inv_period : 0 < period tk;
  inv_origin : origin tk <= lastRecv tk;
  inv_clock : lastRecv tk <= clock w;
  inv_fuel :
    deadline tm <=
    origin tk + period tk * ((lastRecv tk - origin tk) / period tk + Z.of_nat n - 1)
}.

(** ** Further readings of a trace *)

Definition isTick (e : Event) : bool :=
  match e with ETick _ => true | _ => false end.

(** The ticks received in a trace, in order. *)
Definition ticksReceived (tr : list Event) : list Event := List.filter isTick tr.

Definition isExecutorCall (e : Event) : bool :=
  match e with ECreateOrUpdate _ | EDelete _ => true | _ => false end.

(** The calls of the executor in a trace, in order. *)
Definition executorCalls (tr : list Event) : list Event := List.filter isExecutorCall tr.

Definition isLog (e : Event) : Prop :=
  match e with ELog _ _ => True | _ => False end.

(** What the release [r] answers on the [i]-th tick of interval [d] after
    [start]. *)
Definition readyOnTick (r : Release) (d : time.Duration) (start : Z) (i : nat) : bool :=
  answer (rlsDeployed r (start + Z.of_nat i * d)).

(** The resource an event is about: the object of an add or a delete, the
    new object of an update, when every object of the event is a
    [ChartManager] and the resource is in the heap. *)
Definition subject (ev : WatchEvent) (w : World) : option ChartManager :=
  match ev with
  | Added (ObjChartManager p) => heap w !! p
  | Updated (ObjChartManager _) (ObjChartManager p) => heap w !! p
  | Deleted (ObjChartManager p) => heap w !! p
  | _ => None
  end.

(** The executor call the handler of an event makes for the resource. *)
Definition executorCall (ev : WatchEvent) (cm : ChartManager) : Event :=
  match ev with
  | Deleted _ => EDelete cm
  | _ => ECreateOrUpdate cm
  end.

(** The worlds [addFunc] and [updateFunc] can end in for the resource [cm]:
    after the executor call the handler either writes nothing and at most
    logs (nil handle, create-only), or writes the failure status, or waits,
    writes the status and at most logs. *)
Inductive applyEnd (c : Env) (cm : ChartManager) (w : World) : World -> Prop :=
| end_quiet logs w' :
    heap w' = heap w ->
    trace w' = trace (afterApply c cm w) ++ logs ->
    Forall isLog logs ->
    applyEnd c cm w w'
| end_failed r e :
    applyEnd c cm w (afterStatusWrite c cm r e (afterApply c cm w))
| end_waited r err w1 evs logs w' :
    heap w1 = heap w ->
    trace w1 = trace (afterApply c cm w) ++ evs ->
    Forall (waitEvent r (clock (afterApply c cm w) + 2 * time.Minute)) evs ->
    heap w' = heap (afterUpdateStatus c cm r err w1) ->
    trace w' = trace (afterUpdateStatus c cm r err w1) ++ logs ->
    Forall isLog logs ->
    applyEnd c cm w w'.

(** ** Construction ([New]) *)
Section Construction.

(** The values [New] passes on without looking into them: the REST
    configuration of the cluster, the controller configuration, the ChartMgr
    client, its scheme and the helm client. *)
Variables restConfig config client scheme helmClient : Type.

(** The three calls [New] makes and what they return: a Go pair of a value
    and an error.  [helmInit] returns the helm client as [Init] leaves it. *)
Record Bootstrap := mkBootstrap {
  InClusterConfig : restConfig * error;
  NewForConfig : restConfig -> (client * scheme) * error;
  helmInit : config -> restConfig -> helmClient * error
}.

Inductive BootCall :=
| CallInClusterConfig
| CallNewForConfig (restconfig : restConfig)
| CallHelmInit (chartmgrconfig : config) (restconfig : restConfig).

Record Controller := mkController {
  Client : client;
  ChartMgrScheme : scheme;
  Config : config;
  HelmClient : helmClient
}.

(** [New], with the calls it made, in order. *)
Definition New (b : Bootstrap) (chartmgrconfig : config)
    : list BootCall * (option Controller * error) :=
  let '(restconfig, err) := InClusterConfig b in
  match err with
  | Some e => ([CallInClusterConfig], (None, Some e))
  | None =>
      let '((cl, chartmgrscheme), err) := NewForConfig b restconfig in
      match err with
      | Some e => ([CallInClusterConfig; CallNewForConfig restconfig], (None, Some e))
      | None =>
          let '(helm, err) := helmInit b chartmgrconfig restconfig in
          match err with
          | Some e =>
              ([CallInClusterConfig; CallNewForConfig restconfig;
                CallHelmInit chartmgrconfig restconfig],
               (None, Some e))
          | None =>
              ([CallInClusterConfig; CallNewForConfig restconfig;
                CallHelmInit chartmgrconfig restconfig],
               (Some {| Client := cl; ChartMgrScheme := chartmgrscheme;
                        Config := chartmgrconfig; HelmClient := helm |},
                None))
          end
      end
  end.

(** The error a call returns. *)
Definition errorOf (b : Bootstrap) (call : BootCall) : error :=
  match call with
  | CallInClusterConfig => snd (InClusterConfig b)
  | CallNewForConfig restconfig => snd (NewForConfig b restconfig)
  | CallHelmInit chartmgrconfig restconfig => snd (helmInit b chartmgrconfig restconfig)
  end.

(** The three calls of a complete construction. *)
Definition bootSequence (b : Bootstrap) (chartmgrconfig : config) : list BootCall :=
  let restconfig := fst (InClusterConfig b) in
  [CallInClusterConfig; CallNewForConfig restconfig; CallHelmInit chartmgrconfig restconfig].

End Construction.

Arguments InClusterConfig {restConfig config client scheme helmClient} _.
Arguments NewForConfig {restConfig config client scheme helmClient} _ _.
Arguments helmInit {restConfig config client scheme helmClient} _ _ _.
Arguments CallInClusterConfig {restConfig config}.
Arguments CallNewForConfig {restConfig config} _.
Arguments CallHelmInit {restConfig config} _ _.
Arguments mkController {config client scheme helmClient} _ _ _ _.
Arguments Client {config client scheme helmClient} _.
Arguments ChartMgrScheme {config client scheme helmClient} _.
Arguments Config {config client scheme helmClient} _.
Arguments HelmClient {config client scheme helmClient} _.
Arguments New {restConfig config client scheme helmClient} _ _.
Arguments errorOf {restConfig config client scheme helmClient} _ _.
Arguments bootSequence {restConfig config client scheme helmClient} _ _.

(** ** Sample worlds *)
Module Sample.

Definition web : ChartManager :=
  {| Meta := {| Name := "web"; Namespace := "prod" |};
     Spec := "chart: nginx";
     Status := {| State := ""; ReleaseName := ""; Message := "" |} |}.

(** Ready from 45 s on; every query takes 2 ms. *)
Definition slow : Release :=
  {| rlsName := "web-rls";
     rlsStatus := fun t => if 45 * time.Second <=? t then "DEPLOYED" else "PENDING_INSTALL";
     rlsDeployed := fun t => mkReply (45 * time.Second <=? t) 2000000 |}.

(** Never ready. *)
Definition stuck : Release :=
  {| rlsName := "web-rls";
     rlsStatus := fun _ => "PENDING_INSTALL";
     rlsDeployed := fun _ => mkReply false 2000000 |}.


(** Reported as failed from the start. *)
Definition failed : Release :=
  {| rlsName := "web-rls";
     rlsStatus := fun _ => "FAILED";
     rlsDeployed := fun _ => mkReply false 2000000 |}.

Definition helmOk (r : Release) : ChartManager -> Z -> Reply (option Release * error) :=
  fun _ _ => mkReply (Some r, None) 5000000.

Definition helmFails (h : option Release) (e : string)
    : ChartManager -> Z -> Reply (option Release * error) :=
  fun _ _ => mkReply (h, Some e) 5000000.

Definition storeOk : string -> string -> string -> ChartManager -> Z -> Reply error :=
  fun _ _ _ _ _ => mkReply None 1000000.

Definition storeConflict : string -> string -> string -> ChartManager -> Z -> Reply error :=
  fun _ _ _ _ _ => mkReply (Some "the object has been modified") 1000000.

Definition env (helm : ChartManager -> Z -> Reply (option Release * error))
    (createOnly : bool)
    (store : string -> string -> string -> ChartManager -> Z -> Reply error) : Env :=
  {| helmCreateOrUpdate := helm;
     helmDelete := helm;
     isCreateOnly := fun _ => createOnly;
     restPut := store;
     ChartMgrResourcePlural := "chartmgrs" |}.

Definition w0 : World := {| clock := 0; heap := [web]; trace := [] |}.

(** A context cancelled by its cancel function 7 ns after the start. *)
Definition cancelled : Context := {| doneAt := Some 7; doneErr := Canceled |}.

End Sample.

(** More sample handles. *)
Module Cases.

(** Never ready, and every query takes 50 s. *)
Definition sluggish : Release :=
  {| rlsName := "web-rls";
     rlsStatus := fun _ => "PENDING_INSTALL";
     rlsDeployed := fun _ => mkReply false 50000000000 |}.

(** Never ready, and every query takes 80 s. *)
Definition tardy : Release :=
  {| rlsName := "web-rls";
     rlsStatus := fun _ => "PENDING_INSTALL";
     rlsDeployed := fun _ => mkReply false 80000000000 |}.

End Cases.

(** * Proofs *)

(** Unfolds the monad and its primitive actions; the projections of a world
    that has been built are computed, lookups in the heap are left for
    rewriting. *)
Ltac mrun :=
  cbv beta iota zeta delta
    [mbind M_bind mret M_ret panic block exhausted emit now elapse sleepUntil load
     alloc store log Release_Name Release_Status Release_Deployed DeepCopy After
     fired NewTicker recvTick assertChartManager chartmgrName
     CreateOrUpdateChartMgr DeleteChartMgr CreateOnly put recvDone Context_Err
     manage];
  cbn [clock heap trace].

(** The durations as numbers of nanoseconds. *)
Ltac durations :=
  unfold time.Minute, time.Second, time.Millisecond, time.Microsecond, time.Nanosecond in *.

(** ** The heap *)

Lemma heap_fresh (h : list ChartManager) cm : (h ++ [cm]) !! length h = Some cm.
Proof. by apply list_lookup_middle. Qed.

Lemma heap_set_fresh (h : list ChartManager) cm cm' :
  <[length h := cm']> (h ++ [cm]) = h ++ [cm'].
Proof. rewrite insert_app_r_alt by lia. by rewrite Nat.sub_diag. Qed.

Lemma heap_old (h : list ChartManager) cm p x :
  h !! p = Some x -> (h ++ [cm]) !! p = Some x.
Proof. intros Hp. rewrite lookup_app_l; [done | by eapply lookup_lt_Some]. Qed.

(** ** The status writer *)

Lemma updateChartMgrStatus_run c p cm r message w :
  heap w !! p = Some cm ->
  updateChartMgrStatus c p (Some r) message w = Ret tt (afterStatusWrite c cm r message w).
Proof.
  intros Hp. unfold updateChartMgrStatus, afterStatusWrite, statusWrite. mrun.
  rewrite Hp. repeat (mrun; first [rewrite heap_fresh | rewrite heap_set_fresh]). mrun.
  rewrite <- !app_assoc. cbn [app].
  destruct (answer _); mrun; rewrite <- ?app_assoc; simpl; reflexivity.
Qed.

Lemma updateChartMgrStatus_nil c p message w :
  updateChartMgrStatus c p None message w = Panic w.
Proof. reflexivity. Qed.

(** ** Traces of a sequence *)

Lemma statusWrites_app tr1 tr2 :
  statusWrites (tr1 ++ tr2) = statusWrites tr1 ++ statusWrites tr2.
Proof. apply List.filter_app. Qed.

Lemma readinessChecks_app tr1 tr2 :
  readinessChecks (tr1 ++ tr2) = readinessChecks tr1 ++ readinessChecks tr2.
Proof. apply List.filter_app. Qed.

Lemma checkTimes_app tr1 tr2 : checkTimes (tr1 ++ tr2) = checkTimes tr1 ++ checkTimes tr2.
Proof. apply omap_app. Qed.

Create Rewrite HintDb traces.
#[global] Hint Rewrite statusWrites_app readinessChecks_app checkTimes_app : traces.
#[global] Hint Rewrite @app_nil_r : traces.

(** Log lines are neither executor calls nor PUT requests. *)
Lemma logs_quiet logs :
  Forall isLog logs -> executorCalls logs = [] /\ statusWrites logs = [].
Proof.
  induction 1 as [| e logs He _ [IH1 IH2]]; [by split |].
  destruct e; cbn in He |- *; try contradiction. by split.
Qed.

Lemma statusWrites_afterStatusWrite c cm r message w :
  statusWrites (trace (afterStatusWrite c cm r message w)) =
  statusWrites (trace w) ++ [statusWrite c cm r (clock w) message].
Proof.
  unfold afterStatusWrite. cbn [trace]. rewrite statusWrites_app. f_equal.
  destruct (answer _); reflexivity.
Qed.

(** ** The wait loop *)

Lemma waitLoop_step n r tm tk w :
  waitLoop (S n) (Some r) tm tk w =
  if deadline tm <=? clock w then Ret (Some timedOut) w
  else if answer (rlsDeployed r (clock w)) then Ret None (afterCheck r w)
  else waitLoop n (Some r) tm (received tk (afterCheck r w)) (afterTick tk (afterCheck r w)).
Proof.
  cbn [waitLoop]. mrun.
  destruct (deadline tm <=? clock w); [reflexivity |].
  unfold afterCheck, afterTick, received. cbv zeta.
  destruct (answer (rlsDeployed r (clock w))); mrun;
    rewrite <- !app_assoc; cbn [app]; [reflexivity |].
  rewrite (Z.max_r _ (Z.max _ _)) by lia. reflexivity.
Qed.

(** The deadline is looked at first: once it has passed, the loop returns
    the timeout and does nothing else, whatever the handle. *)
Lemma waitLoop_expired n rls tm tk w :
  deadline tm <= clock w ->
  waitLoop (S n) rls tm tk w = Ret (Some timedOut) w.
Proof.
  intros Hd. cbn [waitLoop]. mrun.
  destruct (Z.leb_spec (deadline tm) (clock w)); [reflexivity | lia].
Qed.

Lemma loopInv_next tm tk w r n :
  loopInv tm tk w (S (S n)) ->
  loopInv tm (received tk (afterCheck r w)) (afterTick tk (afterCheck r w)) (S n).
Proof.
  intros [Hp Ho Hc Hf]. unfold received, afterTick, afterCheck, nextTick in *.
  cbv zeta in *. cbn [clock heap trace origin period lastRecv] in *.
  set (P := period tk) in *. set (o := origin tk) in *. set (l := lastRecv tk) in *.
  set (c := clock w + Z.of_N _) in *.
  set (j := (l - o) / P) in *.
  assert (Hj : 0 <= j) by (apply Z.div_pos; lia).
  assert (Hnext : o + P * (j + 1) <= Z.max c (o + P * (j + 1))) by lia.
  set (l' := Z.max c (o + P * (j + 1))) in *.
  assert (Hj' : j + 1 <= (l' - o) / P) by (apply Z.div_le_lower_bound; lia).
  constructor; cbn [origin period lastRecv clock]; try lia.
  fold l'. set (q := (l' - o) / P) in *.
  assert (P * (j + 1) <= P * q) by (apply Z.mul_le_mono_nonneg_l; lia).
  lia.
Qed.

Lemma loopInv_expired tm tk w :
  loopInv tm tk w 1 -> deadline tm <= clock w.
Proof.
  intros [Hp Ho Hc Hf].
  assert (period tk * ((lastRecv tk - origin tk) / period tk) <= lastRecv tk - origin tk)
    by (apply Z.mul_div_le; lia).
  lia.
Qed.

Lemma afterCheck_events r w dl b :
  clock w < dl ->
  answer (rlsDeployed r (clock w)) = b ->
  Forall (waitEvent r dl)
    [ELog Debug ("Checking status of release " +:+ rlsName r);
     EDeployed (rlsName r) (clock w) b].
Proof. intros Hlt Hb. repeat constructor; done. Qed.

(** What a run of the loop that has fuel enough comes to. *)
Lemma waitLoop_sound n : forall r tm tk w,
  loopInv tm tk w (S n) ->
  exists err w' evs,
    waitLoop (S n) (Some r) tm tk w = Ret err w' /\
    heap w' = heap w /\
    trace w' = trace w ++ evs /\
    Forall (waitEvent r (deadline tm)) evs /\
    (clock w < deadline tm ->
     exists rest,
       evs = ELog Debug ("Checking status of release " +:+ rlsName r) ::
             EDeployed (rlsName r) (clock w) (answer (rlsDeployed r (clock w))) :: rest) /\
    match err with
    | Some e =>
        e = timedOut /\ deadline tm <= clock w' /\ Forall notReady evs
    | None =>
        exists evs0 t,
          evs = evs0 ++ [ELog Debug ("Checking status of release " +:+ rlsName r);
                         EDeployed (rlsName r) t true] /\
          Forall notReady evs0 /\
          clock w' = t + Z.of_N (took (rlsDeployed r t))
    end.
Proof.
  induction n as [| n IH]; intros r tm tk w Hinv.
  - apply loopInv_expired in Hinv. rewrite waitLoop_expired by exact Hinv.
    exists (Some timedOut), w, []. rewrite app_nil_r. repeat split; auto. lia.
  - rewrite waitLoop_step.
    destruct (Z.leb_spec (deadline tm) (clock w)) as [Hexp | Hnot].
    + exists (Some timedOut), w, []. rewrite app_nil_r. repeat split; auto. lia.
    + destruct (answer (rlsDeployed r (clock w))) eqn:Hans.
      * exists None, (afterCheck r w), 
          [ELog Debug ("Checking status of release " +:+ rlsName r);
           EDeployed (rlsName r) (clock w) true].
        split; [reflexivity |]. split; [reflexivity |].
        split; [unfold afterCheck; cbv zeta; cbn [trace]; by rewrite Hans |].
        split; [by apply afterCheck_events |].
        split; [intros _; by exists [] |].
        exists [], (clock w). repeat split; auto.
      * destruct (IH r tm _ _ (loopInv_next _ _ _ r _ Hinv))
          as (err & w' & evs & Hrun & Hheap & Htrace & Hev & _ & Herr).
        exists err, w',
          ([ELog Debug ("Checking status of release " +:+ rlsName r);
            EDeployed (rlsName r) (clock w) false] ++
           ETick (Z.max (clock (afterCheck r w)) (nextTick tk)) :: evs).
        split; [exact Hrun |]. split; [exact Hheap |].
        split.
        { rewrite Htrace. unfold afterTick, afterCheck. cbv zeta. cbn [trace].
          rewrite Hans. rewrite <- !app_assoc. reflexivity. }
        split.
        { apply Forall_app. split.
          - by apply afterCheck_events.
          - constructor; [exact I | exact Hev]. }
        split.
        { intros _. eexists. reflexivity. }
        destruct err as [e |].
        { destruct Herr as (He & Hdl & Hnr). repeat split; auto.
          repeat constructor; auto. }
        { destruct Herr as (evs0 & t & Hevs & Hnr & Hclk).
          exists ([ELog Debug ("Checking status of release " +:+ rlsName r);
                   EDeployed (rlsName r) (clock w) false] ++
                  ETick (Z.max (clock (afterCheck r w)) (nextTick tk)) :: evs0), t.
          split; [| split; [| exact Hclk]].
          - rewrite Hevs. rewrite <- !app_assoc. reflexivity.
          - repeat constructor; auto. }
Qed.

(** The timer and the ticker are made at the instant of the call. *)
Lemma waitForReleaseToDeploy_unfold rls w :
  waitForReleaseToDeploy rls w =
  waitLoop waitFuel rls {| deadline := clock w + 2 * time.Minute |}
    {| origin := clock w; period := 30 * time.Second; lastRecv := clock w |} w.
Proof. reflexivity. Qed.

Lemma loopInv_start w :
  loopInv {| deadline := clock w + 2 * time.Minute |}
    {| origin := clock w; period := 30 * time.Second; lastRecv := clock w |} w waitFuel.
Proof.
  constructor; cbn [origin period lastRecv deadline]; try lia.
  - reflexivity.
  - rewrite Z.sub_diag. vm_compute (0 / _). vm_compute (Z.of_nat waitFuel).
    durations. lia.
Qed.

Lemma waitForReleaseToDeploy_sound r w :
  exists err w' evs,
    waitForReleaseToDeploy (Some r) w = Ret err w' /\
    heap w' = heap w /\
    trace w' = trace w ++ evs /\
    Forall (waitEvent r (clock w + 2 * time.Minute)) evs /\
    (exists rest,
       evs = ELog Debug ("Checking status of release " +:+ rlsName r) ::
             EDeployed (rlsName r) (clock w) (answer (rlsDeployed r (clock w))) :: rest) /\
    match err with
    | Some e =>
        e = timedOut /\ clock w + 2 * time.Minute <= clock w' /\ Forall notReady evs
    | None =>
        exists evs0 t,
          evs = evs0 ++ [ELog Debug ("Checking status of release " +:+ rlsName r);
                         EDeployed (rlsName r) t true] /\
          Forall notReady evs0 /\
          clock w' = t + Z.of_N (took (rlsDeployed r t))
    end.
Proof.
  rewrite waitForReleaseToDeploy_unfold.
  destruct (waitLoop_sound _ r _ _ w (loopInv_start w))
    as (err & w' & evs & Hrun & Hheap & Htrace & Hev & Hfirst & Herr).
  cbn [deadline] in *.
  exists err, w', evs. repeat split; auto. apply Hfirst. durations. lia.
Qed.

(** A wait emits no PUT request. *)
Lemma waitEvent_no_put r dl evs :
  Forall (waitEvent r dl) evs -> statusWrites evs = [].
Proof.
  induction 1 as [| e evs He _ IH]; [reflexivity |].
  destruct e as [[] | | | | | |]; cbn in He |- *; try contradiction; exact IH.
Qed.

(** ** A wait whose readiness queries are answered within a tick *)

Section OnTime.

(** A handle whose readiness queries are answered within the tick interval
    [d]. *)
Variable r : Release.
Variable d : time.Duration.
Hypothesis d_pos : 0 < d.
Hypothesis answered_in_time : forall t, Z.of_N (took (rlsDeployed r t)) <= d.

(** After a receive on the [k]-th tick the next tick is the [k+1]-st. *)
Lemma nextTick_aligned tk (k : nat) :
  period tk = d ->
  lastRecv tk = origin tk + Z.of_nat k * d ->
  nextTick tk = origin tk + Z.of_nat (S k) * d.
Proof.
  intros Hd Hlast. unfold nextTick. rewrite Hd, Hlast.
  replace (origin tk + Z.of_nat k * d - origin tk) with (Z.of_nat k * d) by lia.
  rewrite Z.div_mul by lia. lia.
Qed.

(** The check made on a tick is answered by the next tick, so the loop
    wakes on the next tick. *)
Lemma wake_on_next_tick tk w (k : nat) :
  period tk = d ->
  lastRecv tk = origin tk + Z.of_nat k * d ->
  clock w = lastRecv tk ->
  Z.max (clock (afterCheck r w)) (nextTick tk) = clock w + d.
Proof.
  intros Hd Hlast Hclk. rewrite (nextTick_aligned tk k Hd Hlast).
  unfold afterCheck. cbv zeta. cbn [clock].
  pose proof (answered_in_time (clock w)). lia.
Qed.

(** From the [k]-th tick on, with the deadline on the [k+n]-th: the checks
    are made on the ticks, every [d], and the loop is over by the deadline;
    if it times out it has made [n] checks and it is the deadline. *)
Lemma waitLoop_on_time n : forall tm tk w (k : nat),
  period tk = d ->
  lastRecv tk = origin tk + Z.of_nat k * d ->
  clock w = lastRecv tk ->
  deadline tm = origin tk + Z.of_nat (k + n) * d ->
  exists err w' evs (m : nat),
    waitLoop (S n) (Some r) tm tk w = Ret err w' /\
    trace w' = trace w ++ evs /\
    checkTimes evs = every d (clock w) m /\
    (m <= n)%nat /\
    clock w' <= deadline tm /\
    (err <> None -> m = n /\ clock w' = deadline tm).
Proof.
  induction n as [| n IH]; intros tm tk w k Hd Hlast Hclk Hdl.
  - rewrite Nat.add_0_r in Hdl. rewrite waitLoop_expired by lia.
    exists (Some timedOut), w, [], 0%nat. rewrite app_nil_r.
    repeat split; auto; lia.
  - rewrite waitLoop_step.
    assert (Hnot : clock w < deadline tm) by nia.
    destruct (Z.leb_spec (deadline tm) (clock w)) as [Hexp | _]; [lia |].
    pose proof (answered_in_time (clock w)) as Hl.
    destruct (answer (rlsDeployed r (clock w))) eqn:Hans.
    + exists None, (afterCheck r w),
        [ELog Debug ("Checking status of release " +:+ rlsName r);
         EDeployed (rlsName r) (clock w) true], 1%nat.
      split; [reflexivity |].
      split; [unfold afterCheck; cbv zeta; cbn [trace]; by rewrite Hans |].
      split; [reflexivity |]. split; [lia |].
      split; [| congruence].
      unfold afterCheck. cbv zeta. cbn [clock]. nia.
    + pose proof (wake_on_next_tick tk w k Hd Hlast Hclk) as Hwake.
      destruct (IH tm (received tk (afterCheck r w)) (afterTick tk (afterCheck r w)) (S k))
        as (err & w' & evs & m & Hrun & Htrace & Htimes & Hm & Hle & Herr).
      * exact Hd.
      * unfold received. cbn [origin period lastRecv]. rewrite Hwake. lia.
      * reflexivity.
      * unfold received. cbn [origin]. rewrite Hdl. f_equal. f_equal. lia.
      * exists err, w',
          ([ELog Debug ("Checking status of release " +:+ rlsName r);
            EDeployed (rlsName r) (clock w) false] ++
           ETick (Z.max (clock (afterCheck r w)) (nextTick tk)) :: evs), (S m).
        split; [exact Hrun |].
        split.
        { rewrite Htrace. unfold afterTick, afterCheck. cbv zeta. cbn [trace].
          rewrite Hans. rewrite <- !app_assoc. reflexivity. }
        split.
        { cbn [app checkTimes omap list_omap checkTime].
          change (omap checkTime evs) with (checkTimes evs). rewrite Htimes.
          unfold afterTick. cbv zeta. cbn [clock every].
          rewrite Hwake. reflexivity. }
        split; [lia |]. split; [exact Hle |].
        intros Hne. destruct (Herr Hne) as [-> Hc]. split; [reflexivity | exact Hc].
Qed.

End OnTime.

Lemma waitForReleaseToDeploy_on_time r w :
  (forall t, Z.of_N (took (rlsDeployed r t)) <= 30 * time.Second) ->
  exists err w' evs (m : nat),
    waitForReleaseToDeploy (Some r) w = Ret err w' /\
    trace w' = trace w ++ evs /\
    checkTimes evs = every (30 * time.Second) (clock w) m /\
    (m <= 4)%nat /\
    clock w' <= clock w + 2 * time.Minute /\
    (err <> None -> m = 4%nat /\ clock w' = clock w + 2 * time.Minute).
Proof.
  intros Hlat. rewrite waitForReleaseToDeploy_unfold.
  change waitFuel with 5%nat.
  destruct (waitLoop_on_time r (30 * time.Second) eq_refl Hlat 4
              {| deadline := clock w + 2 * time.Minute |}
              {| origin := clock w; period := 30 * time.Second; lastRecv := clock w |} w 0)
    as (err & w' & evs & m & Hrun & Htrace & Htimes & Hm & Hle & Herr);
    cbn [origin period lastRecv deadline] in *; try (durations; lia).
  exists err, w', evs, m. repeat split; auto; apply Herr; assumption.
Qed.

(** ** Polls, ticks and the overrun of the deadline *)

Lemma ticksReceived_app tr1 tr2 :
  ticksReceived (tr1 ++ tr2) = ticksReceived tr1 ++ ticksReceived tr2.
Proof. apply List.filter_app. Qed.

(** One tick is received between two checks: a loop that has fuel enough
    makes at most as many checks as it has passes left but one, and has
    received as many ticks as it made checks when it times out, one less when
    it finds the release ready. *)
Lemma waitLoop_polls n : forall r tm tk w,
  loopInv tm tk w (S n) ->
  exists err w' evs,
    waitLoop (S n) (Some r) tm tk w = Ret err w' /\
    trace w' = trace w ++ evs /\
    (length (readinessChecks evs) <= n)%nat /\
    (clock w < deadline tm \/ err = None -> (1 <= length (readinessChecks evs))%nat) /\
    length (ticksReceived evs) =
      match err with
      | Some _ => length (readinessChecks evs)
      | None => pred (length (readinessChecks evs))
      end.
Proof.
  induction n as [| n IH]; intros r tm tk w Hinv.
  - apply loopInv_expired in Hinv. rewrite waitLoop_expired by exact Hinv.
    exists (Some timedOut), w, []. rewrite app_nil_r. cbn.
    repeat split; auto; intros [? | ?]; [lia | discriminate].
  - rewrite waitLoop_step.
    destruct (Z.leb_spec (deadline tm) (clock w)) as [Hexp | Hnot].
    + exists (Some timedOut), w, []. rewrite app_nil_r. cbn.
      repeat split; auto; [lia | intros [? | ?]; [lia | discriminate]].
    + destruct (answer (rlsDeployed r (clock w))) eqn:Hans.
      * exists None, (afterCheck r w),
          [ELog Debug ("Checking status of release " +:+ rlsName r);
           EDeployed (rlsName r) (clock w) true].
        split; [reflexivity |].
        split; [unfold afterCheck; cbv zeta; cbn [trace]; by rewrite Hans |].
        cbn. repeat split; auto; lia.
      * destruct (IH r tm _ _ (loopInv_next _ _ _ r _ Hinv))
          as (err & w' & evs & Hrun & Htrace & Hle & Hone & Hticks).
        exists err, w',
          ([ELog Debug ("Checking status of release " +:+ rlsName r);
            EDeployed (rlsName r) (clock w) false] ++
           ETick (Z.max (clock (afterCheck r w)) (nextTick tk)) :: evs).
        split; [exact Hrun |].
        split.
        { rewrite Htrace. unfold afterTick, afterCheck. cbv zeta. cbn [trace].
          rewrite Hans. rewrite <- !app_assoc. reflexivity. }
        rewrite readinessChecks_app, ticksReceived_app.
        cbn [readinessChecks ticksReceived List.filter isDeployedCheck isTick app length].
        fold (readinessChecks evs). fold (ticksReceived evs).
        split; [lia |]. split; [lia |].
        rewrite Hticks. destruct err as [e |]; [reflexivity |].
        specialize (Hone (or_intror eq_refl)). lia.
Qed.

(** The next tick is never more than a period away from the last receive. *)
Lemma nextTick_within_period tk :
  0 < period tk -> origin tk <= lastRecv tk ->
  lastRecv tk < nextTick tk <= lastRecv tk + period tk.
Proof.
  intros Hp Ho. unfold nextTick.
  pose proof (Z.mul_div_le (lastRecv tk - origin tk) (period tk) Hp).
  pose proof (Z.mul_succ_div_gt (lastRecv tk - origin tk) (period tk) Hp).
  lia.
Qed.

(** With queries that take at most [L], a loop entered before
    [deadline + max L period] also ends before it. *)
Lemma waitLoop_overrun n : forall r L tm tk w,
  (forall t, Z.of_N (took (rlsDeployed r t)) <= L) ->
  loopInv tm tk w (S n) ->
  clock w < deadline tm + Z.max L (period tk) ->
  exists err w',
    waitLoop (S n) (Some r) tm tk w = Ret err w' /\
    clock w' < deadline tm + Z.max L (period tk).
Proof.
  induction n as [| n IH]; intros r L tm tk w Hlat Hinv Hclk.
  - rewrite waitLoop_expired by exact (loopInv_expired _ _ _ Hinv). eauto.
  - rewrite waitLoop_step.
    destruct (Z.leb_spec (deadline tm) (clock w)) as [Hexp | Hnot]; [eauto |].
    pose proof (Hlat (clock w)) as Hl.
    destruct (answer (rlsDeployed r (clock w))) eqn:Hans.
    + exists None, (afterCheck r w). split; [reflexivity |].
      unfold afterCheck. cbv zeta. cbn [clock]. lia.
    + pose proof (loopInv_next _ _ _ r _ Hinv) as Hinv'.
      destruct Hinv as [Hp Ho Hc _].
      pose proof (nextTick_within_period tk Hp Ho) as Hnext.
      apply (IH r L tm _ _ Hlat Hinv').
      unfold received, afterTick, afterCheck. cbv zeta. cbn [clock period]. lia.
Qed.

(** ** The post-apply sequence *)

Lemma updateStatus_run c p cm r w err w1 :
  heap w !! p = Some cm ->
  waitForReleaseToDeploy (Some r) w = Ret err w1 ->
  heap w1 = heap w ->
  updateStatus c p (Some r) w = Ret err (afterUpdateStatus c cm r err w1).
Proof.
  intros Hp Hwait Hheap. unfold updateStatus, afterUpdateStatus. mrun. rewrite Hwait.
  assert (Hp1 : heap w1 !! p = Some cm) by (by rewrite Hheap).
  destruct err as [e |]; mrun.
  - erewrite updateChartMgrStatus_run by (cbn [heap]; exact Hp1). reflexivity.
  - rewrite Hp1. mrun.
    erewrite updateChartMgrStatus_run by (cbn [heap]; exact Hp1). reflexivity.
Qed.

Lemma statusWrites_afterUpdateStatus c cm r err w w1 evs :
  trace w1 = trace w ++ evs ->
  Forall (waitEvent r (clock w + 2 * time.Minute)) evs ->
  statusWrites (trace (afterUpdateStatus c cm r err w1)) =
  statusWrites (trace w) ++ [statusWrite c cm r (clock w1) (statusMessage r err (clock w1))].
Proof.
  intros Htrace Hev. unfold afterUpdateStatus.
  rewrite statusWrites_afterStatusWrite. cbn [trace clock].
  rewrite Htrace, !statusWrites_app, (waitEvent_no_put _ _ _ Hev).
  destruct err; cbn; by rewrite !app_nil_r.
Qed.

Lemma afterUpdateStatus_heap c cm r err w1 p x :
  heap w1 !! p = Some x -> heap (afterUpdateStatus c cm r err w1) !! p = Some x.
Proof. intros Hp. unfold afterUpdateStatus, afterStatusWrite. cbn [heap]. by apply heap_old. Qed.

(** ** The handlers *)

Lemma afterApply_error c cm h e w :
  answer (helmCreateOrUpdate c cm (clock w)) = (h, Some e) ->
  afterApply c cm w =
  {| clock := clock w + Z.of_N (took (helmCreateOrUpdate c cm (clock w)));
     heap := heap w;
     trace := trace w ++ [ECreateOrUpdate cm; ELog Error e] |}.
Proof. intros Hans. unfold afterApply. cbv zeta. by rewrite Hans. Qed.

Lemma afterApply_ok c cm h w :
  answer (helmCreateOrUpdate c cm (clock w)) = (h, None) ->
  afterApply c cm w =
  {| clock := clock w + Z.of_N (took (helmCreateOrUpdate c cm (clock w)));
     heap := heap w;
     trace := trace w ++ [ECreateOrUpdate cm] |}.
Proof. intros Hans. unfold afterApply. cbv zeta. by rewrite Hans. Qed.

Lemma addFunc_error c p cm h e w :
  heap w !! p = Some cm ->
  answer (helmCreateOrUpdate c cm (clock w)) = (h, Some e) ->
  addFunc c (ObjChartManager p) w = updateChartMgrStatus c p h e (afterApply c cm w).
Proof.
  intros Hp Hans. rewrite (afterApply_error _ _ _ _ _ Hans).
  unfold addFunc. mrun. rewrite Hp. mrun. rewrite Hans. mrun.
  rewrite <- app_assoc. reflexivity.
Qed.

Lemma updateFunc_error c old p cm h e w :
  heap w !! p = Some cm ->
  answer (helmCreateOrUpdate c cm (clock w)) = (h, Some e) ->
  updateFunc c (ObjChartManager old) (ObjChartManager p) w =
  updateChartMgrStatus c p h e (afterApply c cm w).
Proof.
  intros Hp Hans. rewrite (afterApply_error _ _ _ _ _ Hans).
  unfold updateFunc. mrun. rewrite Hp. mrun. rewrite Hans. mrun.
  rewrite <- app_assoc. reflexivity.
Qed.

Lemma addFunc_ok c p cm r w err w1 :
  heap w !! p = Some cm ->
  answer (helmCreateOrUpdate c cm (clock w)) = (Some r, None) ->
  waitForReleaseToDeploy (Some r) (afterApply c cm w) = Ret err w1 ->
  heap w1 = heap w ->
  addFunc c (ObjChartManager p) w =
  Ret tt (afterAdd cm r err (afterUpdateStatus c cm r err w1)).
Proof.
  intros Hp Hans Hwait Hheap.
  assert (Hp1 : heap w1 !! p = Some cm) by (by rewrite Hheap).
  pose proof (updateStatus_run c p cm r (afterApply c cm w) err w1) as Hus.
  rewrite (afterApply_ok _ _ _ _ Hans) in Hus, Hwait.
  specialize (Hus Hp Hwait Hheap).
  unfold addFunc. mrun. rewrite Hp. mrun. rewrite Hans. mrun. rewrite Hus.
  destruct err as [e |]; [reflexivity |]. mrun.
  repeat (rewrite (afterUpdateStatus_heap c cm r None w1 p cm Hp1); mrun).
  unfold afterAdd. rewrite <- app_assoc. reflexivity.
Qed.

Lemma updateFunc_ok c old p cm r w err w1 :
  heap w !! p = Some cm ->
  answer (helmCreateOrUpdate c cm (clock w)) = (Some r, None) ->
  isCreateOnly c cm = false ->
  waitForReleaseToDeploy (Some r) (afterApply c cm w) = Ret err w1 ->
  heap w1 = heap w ->
  updateFunc c (ObjChartManager old) (ObjChartManager p) w =
  Ret tt (afterUpdate cm err (afterUpdateStatus c cm r err w1)).
Proof.
  intros Hp Hans Hco Hwait Hheap.
  assert (Hp1 : heap w1 !! p = Some cm) by (by rewrite Hheap).
  pose proof (updateStatus_run c p cm r (afterApply c cm w) err w1) as Hus.
  rewrite (afterApply_ok _ _ _ _ Hans) in Hus, Hwait.
  specialize (Hus Hp Hwait Hheap).
  unfold updateFunc. mrun. rewrite Hp. mrun. rewrite Hans. mrun. rewrite Hp. mrun.
  rewrite Hco. mrun. rewrite Hus.
  destruct err as [e |]; [reflexivity |]. mrun.
  rewrite (afterUpdateStatus_heap c cm r None w1 p cm Hp1). mrun.
  reflexivity.
Qed.

Lemma updateFunc_create_only c old p cm h w :
  heap w !! p = Some cm ->
  answer (helmCreateOrUpdate c cm (clock w)) = (h, None) ->
  isCreateOnly c cm = true ->
  updateFunc c (ObjChartManager old) (ObjChartManager p) w =
  Ret tt
    {| clock := clock w + Z.of_N (took (helmCreateOrUpdate c cm (clock w)));
       heap := heap w;
       trace := trace w ++
         [ECreateOrUpdate cm;
          ELog Info ("CreateOnly mode. Ignoring update of chart manager "
                     +:+ Name (Meta cm) +:+ ".")] |}.
Proof.
  intros Hp Hans Hco.
  unfold updateFunc. mrun. rewrite Hp. mrun. rewrite Hans. mrun. rewrite Hp. mrun.
  rewrite Hco. mrun. rewrite Hp. mrun. rewrite <- app_assoc. reflexivity.
Qed.

Lemma statusWrites_afterAdd cm r err w2 :
  statusWrites (trace (afterAdd cm r err w2)) = statusWrites (trace w2).
Proof.
  destruct err; [reflexivity |]. cbn [afterAdd trace].
  autorewrite with traces. cbn. by autorewrite with traces.
Qed.

Lemma statusWrites_afterUpdate cm err w2 :
  statusWrites (trace (afterUpdate cm err w2)) = statusWrites (trace w2).
Proof.
  destruct err; [reflexivity |]. cbn [afterUpdate trace].
  autorewrite with traces. cbn. by autorewrite with traces.
Qed.

Lemma statusWrites_afterApply c cm w :
  statusWrites (trace (afterApply c cm w)) = statusWrites (trace w).
Proof.
  unfold afterApply. cbv zeta. cbn [trace]. rewrite statusWrites_app.
  destruct (snd _); cbn; by rewrite app_nil_r.
Qed.

Lemma deleteFunc_run c p cm w :
  heap w !! p = Some cm ->
  deleteFunc c (ObjChartManager p) w =
  Ret tt
    {| clock := clock w + Z.of_N (took (helmDelete c cm (clock w)));
       heap := heap w;
       trace := trace w ++
         [EDelete cm;
          match snd (answer (helmDelete c cm (clock w))) with
          | Some e => ELog Error ("Failed to delete Chart Manager: " +:+ e)
          | None => ELog Info ("Deleted Chart Manager: " +:+ Name (Meta cm))
          end] |}.
Proof.
  intros Hp. unfold deleteFunc. mrun. rewrite Hp. mrun.
  destruct (answer (helmDelete c cm (clock w))) as [h [e |]]; mrun;
    rewrite ?Hp; mrun; rewrite <- app_assoc; reflexivity.
Qed.

Lemma deleteFunc_dangling c p w :
  heap w !! p = None -> deleteFunc c (ObjChartManager p) w = Panic w.
Proof. intros Hp. unfold deleteFunc. mrun. by rewrite Hp. Qed.

(** ** The claims *)

(** C1 (as the code has it). Post-apply sequence: after a successful
    create-or-update that returned a handle, in [addFunc] and (unless
    create-only suppresses it) in [updateFunc], [updateStatus] waits and then
    performs exactly one status write whatever the wait came to.  The PUT
    carries the resource with its status replaced by the handle's state and
    name and, as message, the error text when the wait failed and the
    handle's status string when it succeeded.  [updateStatus] returns the
    error of the wait to the handler, in the world that holds the write.  The
    handler returns nothing: after a failed wait it ends right there, in that
    very world, and after a successful one it only logs. *)
Theorem post_apply_writes_status_once
    (c : Env) (old p : ptr) (cm : ChartManager) (r : Release) (w : World) :
  heap w !! p = Some cm ->
  answer (helmCreateOrUpdate c cm (clock w)) = (Some r, None) ->
  exists (err : error) (w1 w2 : World),
    waitForReleaseToDeploy (Some r) (afterApply c cm w) = Ret err w1 /\
    updateStatus c p (Some r) (afterApply c cm w) = Ret err w2 /\
    statusWrites (trace w2) =
      statusWrites (trace w) ++
      [EPut (Name (Meta cm)) (Namespace (Meta cm)) (ChartMgrResourcePlural c)
         {| Meta := Meta cm; Spec := Spec cm;
            Status := {| State := rlsStatus r (clock w1);
                         ReleaseName := rlsName r;
                         Message := match err with
                                    | Some e => e
                                    | None => rlsStatus r (clock w1)
                                    end |} |}] /\
    (exists wa logs,
       addFunc c (ObjChartManager p) w = Ret tt wa /\
       trace wa = trace w2 ++ logs /\
       Forall isLog logs /\
       (err <> None -> wa = w2)) /\
    (isCreateOnly c cm = false ->
     exists wu logs,
       updateFunc c (ObjChartManager old) (ObjChartManager p) w = Ret tt wu /\
       trace wu = trace w2 ++ logs /\
       Forall isLog logs /\
       (err <> None -> wu = w2)).
Proof.
  intros Hp Hans.
  destruct (waitForReleaseToDeploy_sound r (afterApply c cm w))
    as (err & w1 & evs & Hwait & Hheap & Htrace & Hev & _ & _).
  assert (Hh0 : heap (afterApply c cm w) = heap w) by reflexivity.
  exists err, w1, (afterUpdateStatus c cm r err w1).
  split; [exact Hwait |]. split.
  { apply updateStatus_run; [by rewrite Hh0 | exact Hwait | exact Hheap]. }
  split.
  { rewrite (statusWrites_afterUpdateStatus c cm r err _ w1 evs Htrace Hev).
    rewrite statusWrites_afterApply. unfold statusWrite, withStatus, statusMessage.
    by destruct err. }
  split.
  - rewrite (addFunc_ok c p cm r w err w1 Hp Hans Hwait ltac:(by rewrite Hheap)).
    destruct err as [e |]; cbn [afterAdd].
    + exists (afterUpdateStatus c cm r (Some e) w1), [].
      rewrite app_nil_r. repeat split; auto.
    + do 2 eexists. split; [reflexivity |]. cbn [trace].
      split; [reflexivity |]. split; [repeat constructor | congruence].
  - intros Hco.
    rewrite (updateFunc_ok c old p cm r w err w1 Hp Hans Hco Hwait ltac:(by rewrite Hheap)).
    destruct err as [e |]; cbn [afterUpdate].
    + exists (afterUpdateStatus c cm r (Some e) w1), [].
      rewrite app_nil_r. repeat split; auto.
    + do 2 eexists. split; [reflexivity |]. cbn [trace].
      split; [reflexivity |]. split; [repeat constructor | congruence].
Qed.

(** C2. Create-only suppression: for a resource on which [CreateOnly] holds,
    [updateFunc] still calls the executor's create-or-update (it is the first
    thing the handler does, whatever the executor answers); when that call
    succeeds, the handler logs that the update is ignored and returns: the
    trace gains the call and that line only, and no PUT request. *)
Theorem create_only_skips_status_write
    (c : Env) (old p : ptr) (cm : ChartManager) (w : World) :
  heap w !! p = Some cm ->
  isCreateOnly c cm = true ->
  (exists rest,
     trace (worldOf (updateFunc c (ObjChartManager old) (ObjChartManager p) w)) =
     trace w ++ ECreateOrUpdate cm :: rest) /\
  (forall h,
     answer (helmCreateOrUpdate c cm (clock w)) = (h, None) ->
     exists wu,
       updateFunc c (ObjChartManager old) (ObjChartManager p) w = Ret tt wu /\
       trace wu = trace w ++
         [ECreateOrUpdate cm;
          ELog Info ("CreateOnly mode. Ignoring update of chart manager "
                     +:+ Name (Meta cm) +:+ ".")] /\
       statusWrites (trace wu) = statusWrites (trace w) /\
       heap wu = heap w).
Proof.
  intros Hp Hco. split.
  - destruct (answer (helmCreateOrUpdate c cm (clock w))) as [h [e |]] eqn:Hans.
    + rewrite (updateFunc_error c old p cm h e w Hp Hans).
      rewrite (afterApply_error _ _ _ _ _ Hans).
      destruct h as [r |].
      * erewrite updateChartMgrStatus_run by (cbn [heap]; exact Hp).
        unfold afterStatusWrite. cbv zeta. cbn [worldOf trace].
        rewrite <- !app_assoc. cbn [app]. eexists. reflexivity.
      * rewrite updateChartMgrStatus_nil. cbn [worldOf trace]. eexists. reflexivity.
    + rewrite (updateFunc_create_only c old p cm h w Hp Hans Hco).
      cbn [worldOf trace]. eexists. reflexivity.
  - intros h Hans. rewrite (updateFunc_create_only c old p cm h w Hp Hans Hco).
    eexists. split; [reflexivity |]. cbn [trace heap]. split; [reflexivity |].
    split; [| reflexivity].
    rewrite statusWrites_app. cbn. by rewrite app_nil_r.
Qed.

(** C3 (as the code has it). The convergence waiter: a wait on a handle
    always returns.  Its first act is a readiness check at the instant of the
    call; it checks again each time it has received a tick, at most four
    times in all.  It returns [nil] exactly by a check that answered [true],
    at the instant that answer arrived and with no earlier check answered
    [true]; otherwise it returns the timeout error, no earlier than 2 minutes
    after the call and with every check answered [false].  How late it
    returns depends on the readiness queries: when each is answered within
    [L], the wait is over less than the longer of [L] and one tick interval
    after the 2 minutes.  When each is answered within one tick interval, the
    checks are made every 30 seconds from the call on, a timeout comes after
    four of them and exactly 2 minutes after the call, and the wait is thus
    over before 2 minutes and one tick. *)
Theorem convergence_waiter_contract (r : Release) (w : World) :
  exists (err : error) (w' : World) (evs : list Event),
    waitForReleaseToDeploy (Some r) w = Ret err w' /\
    trace w' = trace w ++ evs /\
    (exists rest,
       evs = ELog Debug ("Checking status of release " +:+ rlsName r) ::
             EDeployed (rlsName r) (clock w) (answer (rlsDeployed r (clock w))) :: rest) /\
    match err with
    | None =>
        exists evs0 t,
          evs = evs0 ++ [ELog Debug ("Checking status of release " +:+ rlsName r);
                         EDeployed (rlsName r) t true] /\
          Forall notReady evs0 /\
          clock w' = t + Z.of_N (took (rlsDeployed r t))
    | Some e =>
        e = timedOut /\ Forall notReady evs /\ clock w + 2 * time.Minute <= clock w'
    end /\
    (1 <= length (readinessChecks evs) <= 4)%nat /\
    length (ticksReceived evs) =
      match err with
      | Some _ => length (readinessChecks evs)
      | None => pred (length (readinessChecks evs))
      end /\
    (forall L,
       (forall t, Z.of_N (took (rlsDeployed r t)) <= L) ->
       clock w' < clock w + 2 * time.Minute + Z.max L (30 * time.Second)) /\
    ((forall t, Z.of_N (took (rlsDeployed r t)) <= 30 * time.Second) ->
     exists m : nat,
       checkTimes evs = every (30 * time.Second) (clock w) m /\
       (1 <= m <= 4)%nat /\
       clock w' <= clock w + 2 * time.Minute /\
       clock w' < clock w + 2 * time.Minute + 30 * time.Second /\
       (err <> None -> m = 4%nat /\ clock w' = clock w + 2 * time.Minute)).
Proof.
  destruct (waitForReleaseToDeploy_sound r w)
    as (err & w' & evs & Hwait & _ & Htrace & _ & Hfirst & Herr).
  exists err, w', evs. split; [exact Hwait |]. split; [exact Htrace |].
  split; [exact Hfirst |]. split.
  { destruct err as [e |]; [| exact Herr].
    destruct Herr as (He & Hdl & Hnr). auto. }
  pose proof Hwait as Hloop. rewrite waitForReleaseToDeploy_unfold in Hloop.
  change waitFuel with 5%nat in Hloop.
  destruct (waitLoop_polls 4 r _ _ w (loopInv_start w))
    as (err1 & w1 & evs1 & Hrun1 & Htrace1 & Hle & Hone & Hticks).
  rewrite Hloop in Hrun1. injection Hrun1 as <- <-.
  rewrite Htrace in Htrace1. apply app_inv_head in Htrace1. subst evs1.
  split.
  { split; [| exact Hle]. apply Hone. left. cbn [deadline]. durations. lia. }
  split; [exact Hticks |]. split.
  - intros L Hlat.
    destruct (waitLoop_overrun 4 r L _ _ w Hlat (loopInv_start w))
      as (err2 & w2 & Hrun2 & Hclk).
    { cbn [deadline period]. pose proof (Hlat 0). durations. lia. }
    rewrite Hloop in Hrun2. injection Hrun2 as <- <-. exact Hclk.
  - intros Hlat.
    destruct (waitForReleaseToDeploy_on_time r w Hlat)
      as (err2 & w2 & evs2 & m & Hwait2 & Htrace2 & Htimes & Hm & Hclk & Hexact).
    rewrite Hwait in Hwait2. injection Hwait2 as <- <-.
    rewrite Htrace in Htrace2. apply app_inv_head in Htrace2. subst evs2.
    exists m. split; [exact Htimes |]. split.
    + split; [| exact Hm]. destruct Hfirst as [rest ->].
      destruct m; [discriminate Htimes | lia].
    + split; [exact Hclk |]. split; [durations; lia |].
      intros Hne. by apply Hexact.
Qed.

(** C4 (as the code has it). An executor error in [addFunc], and in the same
    way in [updateFunc]: the handler logs the error and writes one status,
    whose state is the status the returned handle reports at that moment,
    whose release name is the handle's name and whose message is the error
    text; it then returns.  The trace gains the executor call, the error
    line, the debug line of the status writer, the PUT and, when the API
    server refuses the PUT, the line of that failure: no readiness check and
    no tick. *)
Theorem executor_error_writes_handle_state
    (c : Env) (old p : ptr) (cm : ChartManager) (r : Release) (e : string) (w : World) :
  heap w !! p = Some cm ->
  answer (helmCreateOrUpdate c cm (clock w)) = (Some r, Some e) ->
  exists (w' : World) (t : Z) (body : ChartManager) (tail : list Event),
    t = clock w + Z.of_N (took (helmCreateOrUpdate c cm (clock w))) /\
    body = {| Meta := Meta cm; Spec := Spec cm;
              Status := {| State := rlsStatus r t; ReleaseName := rlsName r;
                           Message := e |} |} /\
    addFunc c (ObjChartManager p) w = Ret tt w' /\
    updateFunc c (ObjChartManager old) (ObjChartManager p) w = Ret tt w' /\
    trace w' =
      trace w ++
      [ECreateOrUpdate cm;
       ELog Error e;
       ELog Debug ("Updating Chart Manager status: state=" +:+ rlsStatus r t
                   +:+ " release=" +:+ rlsName r);
       EPut (Name (Meta cm)) (Namespace (Meta cm)) (ChartMgrResourcePlural c) body] ++
      tail /\
    tail =
      match answer (restPut c (Name (Meta cm)) (Namespace (Meta cm))
                      (ChartMgrResourcePlural c) body t) with
      | Some e' => [ELog Error ("Failed to update status: " +:+ e')]
      | None => []
      end /\
    statusWrites (trace w') =
      statusWrites (trace w) ++
      [EPut (Name (Meta cm)) (Namespace (Meta cm)) (ChartMgrResourcePlural c) body] /\
    readinessChecks (trace w') = readinessChecks (trace w) /\
    ticksReceived (trace w') = ticksReceived (trace w).
Proof.
  intros Hp Hans.
  assert (Hp0 : heap (afterApply c cm w) !! p = Some cm) by exact Hp.
  exists (afterStatusWrite c cm r e (afterApply c cm w)).
  do 3 eexists. split; [reflexivity |]. split; [reflexivity |].
  split.
  { rewrite (addFunc_error c p cm (Some r) e w Hp Hans).
    by apply updateChartMgrStatus_run. }
  split.
  { rewrite (updateFunc_error c old p cm (Some r) e w Hp Hans).
    by apply updateChartMgrStatus_run. }
  assert (Htrace :
    trace (afterStatusWrite c cm r e (afterApply c cm w)) =
    trace w ++
    [ECreateOrUpdate cm; ELog Error e;
     ELog Debug ("Updating Chart Manager status: state=" +:+
                 rlsStatus r (clock w + Z.of_N (took (helmCreateOrUpdate c cm (clock w))))
                 +:+ " release=" +:+ rlsName r);
     EPut (Name (Meta cm)) (Namespace (Meta cm)) (ChartMgrResourcePlural c)
       {| Meta := Meta cm; Spec := Spec cm;
          Status := {| State := rlsStatus r
                         (clock w + Z.of_N (took (helmCreateOrUpdate c cm (clock w))));
                       ReleaseName := rlsName r; Message := e |} |}] ++
    match answer (restPut c (Name (Meta cm)) (Namespace (Meta cm))
                    (ChartMgrResourcePlural c)
                    {| Meta := Meta cm; Spec := Spec cm;
                       Status := {| State := rlsStatus r
                                      (clock w +
                                       Z.of_N (took (helmCreateOrUpdate c cm (clock w))));
                                    ReleaseName := rlsName r; Message := e |} |}
                    (clock w + Z.of_N (took (helmCreateOrUpdate c cm (clock w))))) with
    | Some e' => [ELog Error ("Failed to update status: " +:+ e')]
    | None => []
    end).
  { rewrite (afterApply_error _ _ _ _ _ Hans).
    unfold afterStatusWrite, statusWrite, withStatus. cbv zeta. cbn [trace clock].
    rewrite <- !app_assoc. reflexivity. }
  split; [exact Htrace |]. split; [reflexivity |].
  rewrite Htrace. unfold statusWrites, readinessChecks, ticksReceived.
  rewrite !List.filter_app. cbn [List.filter isPut isDeployedCheck isTick app].
  destruct (answer (restPut _ _ _ _ _ _)); cbn; rewrite ?app_nil_r; auto.
Qed.


Lemma put_run c q body w :
  heap w !! q = Some body ->
  put c q w =
  Ret (answer (restPut c (Name (Meta body)) (Namespace (Meta body))
                 (ChartMgrResourcePlural c) body (clock w)))
    {| clock := clock w + Z.of_N (took (restPut c (Name (Meta body)) (Namespace (Meta body))
                                          (ChartMgrResourcePlural c) body (clock w)));
       heap := heap w;
       trace := trace w ++
         [EPut (Name (Meta body)) (Namespace (Meta body)) (ChartMgrResourcePlural c) body] |}.
Proof. intros Hq. unfold put. mrun. rewrite Hq. reflexivity. Qed.

(** C6. Copy-on-write status update: a status write for a resource and a
    handle makes a new object, the resource with its status replaced by the
    handle's state and name and the message, sends exactly one PUT request,
    addressed by the resource's name and namespace and carrying that object,
    and leaves every object that was in the heap, the caller's one among
    them, as it was. *)
Theorem status_write_is_copy_on_write
    (c : Env) (p : ptr) (cm : ChartManager) (r : Release) (message : string) (w : World) :
  heap w !! p = Some cm ->
  exists w',
    updateChartMgrStatus c p (Some r) message w = Ret tt w' /\
    statusWrites (trace w') =
      statusWrites (trace w) ++
      [EPut (Name (Meta cm)) (Namespace (Meta cm)) (ChartMgrResourcePlural c)
         {| Meta := Meta cm; Spec := Spec cm;
            Status := {| State := rlsStatus r (clock w); ReleaseName := rlsName r;
                         Message := message |} |}] /\
    heap w' =
      heap w ++
      [{| Meta := Meta cm; Spec := Spec cm;
          Status := {| State := rlsStatus r (clock w); ReleaseName := rlsName r;
                       Message := message |} |}] /\
    heap w' !! p = Some cm /\
    (forall (q : ptr) x, heap w !! q = Some x -> heap w' !! q = Some x).
Proof.
  intros Hp. exists (afterStatusWrite c cm r message w).
  split; [by apply updateChartMgrStatus_run |].
  split; [apply statusWrites_afterStatusWrite |].
  split; [reflexivity |].
  split; [by apply heap_old |].
  intros q x Hq. by apply heap_old.
Qed.

(** C7 (as the code has it). A failed PUT: [put] returns the error of the
    API server to [updateChartMgrStatus], which logs it as its last act and
    returns normally; the request was sent once and is not sent again. *)
Theorem status_write_failure_is_logged
    (c : Env) (p : ptr) (cm : ChartManager) (r : Release) (message e : string) (w : World) :
  heap w !! p = Some cm ->
  answer (restPut c (Name (Meta cm)) (Namespace (Meta cm)) (ChartMgrResourcePlural c)
            (withStatus cm {| State := rlsStatus r (clock w); ReleaseName := rlsName r;
                              Message := message |})
            (clock w)) = Some e ->
  (forall (q : ptr) body w1,
     heap w1 !! q = Some body ->
     exists w2,
       put c q w1 =
       Ret (answer (restPut c (Name (Meta body)) (Namespace (Meta body))
                      (ChartMgrResourcePlural c) body (clock w1))) w2) /\
  exists w' tr,
    updateChartMgrStatus c p (Some r) message w = Ret tt w' /\
    trace w' = tr ++ [ELog Error ("Failed to update status: " +:+ e)] /\
    statusWrites (trace w') =
      statusWrites (trace w) ++ [statusWrite c cm r (clock w) message].
Proof.
  intros Hp Hfail. split.
  - intros q body w1 Hq. rewrite (put_run c q body w1 Hq). eexists. reflexivity.
  - exists (afterStatusWrite c cm r message w). eexists.
    split; [by apply updateChartMgrStatus_run |].
    split; [| apply statusWrites_afterStatusWrite].
    unfold afterStatusWrite. cbv zeta. cbn [trace]. rewrite Hfail.
    rewrite !app_assoc. reflexivity.
Qed.

(** C8 (as the code has it). The lifecycle: [Run] starts the informer as a
    goroutine stopped by the context's [Done] channel, logs that the
    controller has started and blocks until the context is done (for ever, if
    it never is); it then returns the error of the context, which is the
    reason it is done and never [nil]. *)
Theorem Run_returns_context_error (c : Env) (ctx : Context) (w : World) :
  Run c ctx w =
  match doneAt ctx with
  | Some t =>
      Ret (Some (ContextError_Error (doneErr ctx)))
        {| clock := Z.max (clock w) t;
           heap := heap w;
           trace := trace w ++
             [EGo (InformerRun (ChartMgrResourcePlural c) NamespaceAll 0 (doneAt ctx));
              ELog Info "Successfully started Chart Manager controller"] |}
  | None =>
      Blocked
        {| clock := clock w;
           heap := heap w;
           trace := trace w ++
             [EGo (InformerRun (ChartMgrResourcePlural c) NamespaceAll 0 (doneAt ctx));
              ELog Info "Successfully started Chart Manager controller"] |}
  end.
Proof.
  unfold Run. mrun. rewrite <- app_assoc. cbn [app].
  destruct (doneAt ctx) as [t |]; mrun; [| reflexivity].
  destruct (Z.leb_spec t (Z.max (clock w) t)); [reflexivity | lia].
Qed.


(** ** Runs on the sample worlds *)

(** A release that is ready after 45 s is found ready by the third check, on
    the tick of 60 s; the wait returns 2 ms later, when the answer is in. *)
Example wait_for_slow_release :
  waitForReleaseToDeploy (Some Sample.slow) Sample.w0 =
  Ret None
    {| clock := 60002000000;
       heap := [Sample.web];
       trace :=
         [ELog Debug "Checking status of release web-rls";
          EDeployed "web-rls" 0 false;
          ETick 30000000000;
          ELog Debug "Checking status of release web-rls";
          EDeployed "web-rls" 30000000000 false;
          ETick 60000000000;
          ELog Debug "Checking status of release web-rls";
          EDeployed "web-rls" 60000000000 true] |}.
Proof. vm_compute. reflexivity. Qed.

(** A release that is never ready is checked four times; the fifth pass, on
    the tick of 120 s, finds the deadline passed. *)
Example wait_for_stuck_release :
  waitForReleaseToDeploy (Some Sample.stuck) Sample.w0 =
  Ret (Some timedOut)
    {| clock := 120000000000;
       heap := [Sample.web];
       trace :=
         [ELog Debug "Checking status of release web-rls";
          EDeployed "web-rls" 0 false;
          ETick 30000000000;
          ELog Debug "Checking status of release web-rls";
          EDeployed "web-rls" 30000000000 false;
          ETick 60000000000;
          ELog Debug "Checking status of release web-rls";
          EDeployed "web-rls" 60000000000 false;
          ETick 90000000000;
          ELog Debug "Checking status of release web-rls";
          EDeployed "web-rls" 90000000000 false;
          ETick 120000000000] |}.
Proof. vm_compute. reflexivity. Qed.

(** An update of a resource whose release never gets ready: the timeout is
    logged and written to the status, in a copy of the resource. *)
Example update_of_stuck_release :
  updateFunc (Sample.env (Sample.helmOk Sample.stuck) false Sample.storeOk)
    (ObjChartManager 0) (ObjChartManager 0) Sample.w0 =
  Ret tt
    {| clock := 120006000000;
       heap :=
         [Sample.web;
          withStatus Sample.web
            {| State := "PENDING_INSTALL"; ReleaseName := "web-rls";
               Message := timedOut |}];
       trace :=
         [ECreateOrUpdate Sample.web;
          ELog Debug "Checking status of release web-rls";
          EDeployed "web-rls" 5000000 false;
          ETick 30005000000;
          ELog Debug "Checking status of release web-rls";
          EDeployed "web-rls" 30005000000 false;
          ETick 60005000000;
          ELog Debug "Checking status of release web-rls";
          EDeployed "web-rls" 60005000000 false;
          ETick 90005000000;
          ELog Debug "Checking status of release web-rls";
          EDeployed "web-rls" 90005000000 false;
          ETick 120005000000;
          ELog Error
            "Failed to verify that release web-rls deployed: Timed out waiting for release to deploy";
          ELog Debug "Updating Chart Manager status: state=PENDING_INSTALL release=web-rls";
          EPut "web" "prod" "chartmgrs"
            (withStatus Sample.web
               {| State := "PENDING_INSTALL"; ReleaseName := "web-rls";
                  Message := timedOut |})] |}.
Proof. vm_compute. reflexivity. Qed.

(** ** The claims on the sample worlds *)

(** C1 on two samples: a release that is ready after 45 s has its status
    string written as message; a release that never gets ready has the
    timeout written, and the handler still returns nothing. *)
Lemma post_apply_writes_status_once_witness :
  (exists wa,
     addFunc (Sample.env (Sample.helmOk Sample.slow) false Sample.storeOk)
       (ObjChartManager 0) Sample.w0 = Ret tt wa /\
     statusWrites (trace wa) =
       [EPut "web" "prod" "chartmgrs"
          {| Meta := {| Name := "web"; Namespace := "prod" |};
             Spec := "chart: nginx";
             Status := {| State := "DEPLOYED"; ReleaseName := "web-rls";
                          Message := "DEPLOYED" |} |}]) /\
  (exists wu,
     updateFunc (Sample.env (Sample.helmOk Sample.stuck) false Sample.storeOk)
       (ObjChartManager 0) (ObjChartManager 0) Sample.w0 = Ret tt wu /\
     statusWrites (trace wu) =
       [EPut "web" "prod" "chartmgrs"
          {| Meta := {| Name := "web"; Namespace := "prod" |};
             Spec := "chart: nginx";
             Status := {| State := "PENDING_INSTALL"; ReleaseName := "web-rls";
                          Message := "Timed out waiting for release to deploy" |} |}]).
Proof.
  split.
  - destruct (post_apply_writes_status_once
                (Sample.env (Sample.helmOk Sample.slow) false Sample.storeOk)
                0%nat 0%nat Sample.web Sample.slow Sample.w0 eq_refl eq_refl)
      as (err & w1 & w2 & Hwait & _ & Hw2 & (wa & logs & Hadd & Htr & Hlogs & _) & _).
    vm_compute in Hwait. injection Hwait as <- <-.
    exists wa. split; [exact Hadd |].
    rewrite Htr, statusWrites_app, (proj2 (logs_quiet logs Hlogs)), app_nil_r, Hw2.
    reflexivity.
  - destruct (post_apply_writes_status_once
                (Sample.env (Sample.helmOk Sample.stuck) false Sample.storeOk)
                0%nat 0%nat Sample.web Sample.stuck Sample.w0 eq_refl eq_refl)
      as (err & w1 & w2 & Hwait & _ & Hw2 & _ & Hupd).
    destruct (Hupd eq_refl) as (wu & logs & Hu & Htr & Hlogs & _).
    vm_compute in Hwait. injection Hwait as <- <-.
    exists wu. split; [exact Hu |].
    rewrite Htr, statusWrites_app, (proj2 (logs_quiet logs Hlogs)), app_nil_r, Hw2.
    reflexivity.
Defined.

(** C1, as it is stated, fails: a failed wait is not returned as the
    handler's own error.  [addFunc] and [updateFunc] have no result; on a
    release that never gets ready the wait times out and the handler returns
    as it does after a successful wait, and no reading of what the handler
    returns tells the two apart. *)
Lemma failed_wait_not_returned_by_handler :
  (exists w1 wa,
     waitForReleaseToDeploy (Some Sample.stuck)
       (afterApply (Sample.env (Sample.helmOk Sample.stuck) false Sample.storeOk)
          Sample.web Sample.w0) = Ret (Some timedOut) w1 /\
     addFunc (Sample.env (Sample.helmOk Sample.stuck) false Sample.storeOk)
       (ObjChartManager 0) Sample.w0 = Ret tt wa) /\
  ~ (exists observe : unit -> error,
       forall c (p : ptr) cm r w a wa err w1,
         heap w !! p = Some cm ->
         answer (helmCreateOrUpdate c cm (clock w)) = (Some r, None) ->
         waitForReleaseToDeploy (Some r) (afterApply c cm w) = Ret err w1 ->
         addFunc c (ObjChartManager p) w = Ret a wa ->
         observe a = err).
Proof.
  split.
  - do 2 eexists. split; vm_compute; reflexivity.
  - intros [observe Hall].
    assert (Hstuck : exists w1 wa,
              waitForReleaseToDeploy (Some Sample.stuck)
                (afterApply (Sample.env (Sample.helmOk Sample.stuck) false Sample.storeOk)
                   Sample.web Sample.w0) = Ret (Some timedOut) w1 /\
              addFunc (Sample.env (Sample.helmOk Sample.stuck) false Sample.storeOk)
                (ObjChartManager 0) Sample.w0 = Ret tt wa)
      by (do 2 eexists; split; vm_compute; reflexivity).
    assert (Hslow : exists w1 wa,
              waitForReleaseToDeploy (Some Sample.slow)
                (afterApply (Sample.env (Sample.helmOk Sample.slow) false Sample.storeOk)
                   Sample.web Sample.w0) = Ret None w1 /\
              addFunc (Sample.env (Sample.helmOk Sample.slow) false Sample.storeOk)
                (ObjChartManager 0) Sample.w0 = Ret tt wa)
      by (do 2 eexists; split; vm_compute; reflexivity).
    destruct Hstuck as (w1 & wa & Hwait & Hadd).
    destruct Hslow as (w1' & wa' & Hwait' & Hadd').
    pose proof (Hall (Sample.env (Sample.helmOk Sample.stuck) false Sample.storeOk)
                  0%nat Sample.web Sample.stuck Sample.w0 tt wa (Some timedOut) w1
                  eq_refl eq_refl Hwait Hadd) as Hbad.
    pose proof (Hall (Sample.env (Sample.helmOk Sample.slow) false Sample.storeOk)
                  0%nat Sample.web Sample.slow Sample.w0 tt wa' None w1'
                  eq_refl eq_refl Hwait' Hadd') as Hgood.
    congruence.
Qed.

(** C2 on a sample: the same release behind a create-only resource. *)
Lemma create_only_skips_status_write_witness :
  exists wu,
    updateFunc (Sample.env (Sample.helmOk Sample.slow) true Sample.storeOk)
      (ObjChartManager 0) (ObjChartManager 0) Sample.w0 = Ret tt wu /\
    trace wu =
      [ECreateOrUpdate Sample.web;
       ELog Info "CreateOnly mode. Ignoring update of chart manager web."] /\
    statusWrites (trace wu) = [].
Proof.
  destruct (create_only_skips_status_write
              (Sample.env (Sample.helmOk Sample.slow) true Sample.storeOk)
              0%nat 0%nat Sample.web Sample.w0 eq_refl eq_refl) as [_ Hok].
  destruct (Hok (Some Sample.slow) eq_refl) as (wu & Hu & Htr & Hw & _).
  exists wu. split; [exact Hu |]. split; [exact Htr | exact Hw].
Defined.

(** C3 on two samples with queries answered in 2 ms: a release that is ready
    after 45 s is checked at the call, 30 and 60 seconds later, and the wait
    returns once the third answer is in; a release that never gets ready is
    checked four times, 30 seconds apart, and the wait times out on the 2
    minutes. *)
Lemma convergence_waiter_contract_witness :
  (exists w' evs,
     waitForReleaseToDeploy (Some Sample.slow) Sample.w0 = Ret None w' /\
     trace w' = evs /\
     checkTimes evs = [0; 30000000000; 60000000000] /\
     clock w' = 60002000000) /\
  (exists w' evs,
     waitForReleaseToDeploy (Some Sample.stuck) Sample.w0 = Ret (Some timedOut) w' /\
     trace w' = evs /\
     checkTimes evs = [0; 30000000000; 60000000000; 90000000000] /\
     clock w' = 2 * time.Minute).
Proof.
  split.
  - destruct (convergence_waiter_contract Sample.slow Sample.w0)
      as (err & w' & evs & Hwait & Htrace & _ & _ & _ & _ & _ & Hon).
    destruct Hon as (m & Htimes & _).
    { intros t. cbn. durations. lia. }
    pose proof Hwait as Hrun. vm_compute in Hrun. injection Hrun as <- <-.
    eexists _, evs. split; [exact Hwait |]. split; [exact Htrace |].
    split; [| reflexivity].
    cbn in Htrace. subst evs. reflexivity.
  - destruct (convergence_waiter_contract Sample.stuck Sample.w0)
      as (err & w' & evs & Hwait & Htrace & _ & _ & _ & _ & _ & Hon).
    destruct Hon as (m & Htimes & _ & _ & _ & Hexact).
    { intros t. cbn. durations. lia. }
    pose proof Hwait as Hrun. vm_compute in Hrun. injection Hrun as <- Hw'.
    destruct (Hexact ltac:(discriminate)) as [-> Hclk].
    exists w', evs. split; [exact Hwait |]. split; [exact Htrace |].
    split; [exact Htimes | exact Hclk].
Defined.

(** C3, as it is stated, fails: nothing bounds the time a readiness query
    takes, and the deadline is looked at only between two queries.  With
    queries that take 80 s the second check is made 80 s after the call, not
    30, and the timeout comes 160 s after the call, later than 2 minutes and
    one tick. *)
Lemma wait_overruns_with_slow_queries :
  exists w',
    waitForReleaseToDeploy (Some Cases.tardy) Sample.w0 = Ret (Some timedOut) w' /\
    checkTimes (trace w') = [0; 80000000000] /\
    clock w' = 160000000000 /\
    clock Sample.w0 + 2 * time.Minute + 30 * time.Second < clock w'.
Proof.
  eexists. split; [vm_compute; reflexivity |].
  split; [reflexivity |]. split; [reflexivity |]. reflexivity.
Qed.

(** C4 on a sample: the executor fails and hands back a handle that reports a
    pending install; the store accepts the write. *)
Lemma executor_error_writes_handle_state_witness :
  exists w',
    addFunc (Sample.env (Sample.helmFails (Some Sample.stuck) "boom") false Sample.storeOk)
      (ObjChartManager 0) Sample.w0 = Ret tt w' /\
    trace w' =
      [ECreateOrUpdate Sample.web;
       ELog Error "boom";
       ELog Debug "Updating Chart Manager status: state=PENDING_INSTALL release=web-rls";
       EPut "web" "prod" "chartmgrs"
         {| Meta := {| Name := "web"; Namespace := "prod" |};
            Spec := "chart: nginx";
            Status := {| State := "PENDING_INSTALL"; ReleaseName := "web-rls";
                         Message := "boom" |} |}].
Proof.
  destruct (executor_error_writes_handle_state
              (Sample.env (Sample.helmFails (Some Sample.stuck) "boom") false Sample.storeOk)
              0%nat 0%nat Sample.web Sample.stuck "boom" Sample.w0 eq_refl eq_refl)
    as (w' & t & body & tail & -> & -> & Hadd & _ & Htrace & -> & _).
  exists w'. split; [exact Hadd | exact Htrace].
Defined.

(** C4, as it is stated, fails: the state that is written is the one the
    handle reports.  With a handle that reports a pending install the state
    written is the pending install; there is no state that every executor
    error leads to. *)
Lemma executor_error_state_not_always_failed :
  (exists w',
     addFunc (Sample.env (Sample.helmFails (Some Sample.stuck) "boom") false Sample.storeOk)
       (ObjChartManager 0) Sample.w0 = Ret tt w' /\
     statusWrites (trace w') =
       [EPut "web" "prod" "chartmgrs"
          (withStatus Sample.web
             {| State := "PENDING_INSTALL"; ReleaseName := "web-rls";
                Message := "boom" |})]) /\
  ~ (exists failed : ChartMgrState,
       forall c (p : ptr) cm r e w,
         heap w !! p = Some cm ->
         answer (helmCreateOrUpdate c cm (clock w)) = (Some r, Some e) ->
         exists w' name namespace resource body,
           addFunc c (ObjChartManager p) w = Ret tt w' /\
           statusWrites (trace w') =
             statusWrites (trace w) ++ [EPut name namespace resource body] /\
           State (Status body) = failed).
Proof.
  split.
  - eexists. split; vm_compute; reflexivity.
  - intros [st Hall].
    destruct (Hall (Sample.env (Sample.helmFails (Some Sample.stuck) "boom") false
                      Sample.storeOk)
                0%nat Sample.web Sample.stuck "boom" Sample.w0 eq_refl eq_refl)
      as (w1 & n1 & ns1 & res1 & b1 & Hrun1 & Hw1 & Hst1).
    destruct (Hall (Sample.env (Sample.helmFails (Some Sample.failed) "boom") false
                      Sample.storeOk)
                0%nat Sample.web Sample.failed "boom" Sample.w0 eq_refl eq_refl)
      as (w2 & n2 & ns2 & res2 & b2 & Hrun2 & Hw2 & Hst2).
    vm_compute in Hrun1. injection Hrun1 as <-.
    vm_compute in Hrun2. injection Hrun2 as <-.
    vm_compute in Hw1. injection Hw1 as <- <- <- <-.
    vm_compute in Hw2. injection Hw2 as <- <- <- <-.
    cbn in Hst1, Hst2. congruence.
Qed.


(** C6 on a sample: the object of the caller is still the one it was. *)
Lemma status_write_is_copy_on_write_witness :
  exists w',
    updateChartMgrStatus (Sample.env (Sample.helmOk Sample.slow) false Sample.storeOk)
      0%nat (Some Sample.slow) "DEPLOYED" Sample.w0 = Ret tt w' /\
    heap w' !! 0%nat = Some Sample.web /\
    length (statusWrites (trace w')) = 1%nat.
Proof.
  destruct (status_write_is_copy_on_write
              (Sample.env (Sample.helmOk Sample.slow) false Sample.storeOk)
              0%nat Sample.web Sample.slow "DEPLOYED" Sample.w0 eq_refl)
    as (w' & Hrun & Hw & _ & Hp & _).
  exists w'. split; [exact Hrun |]. split; [exact Hp |]. rewrite Hw. reflexivity.
Defined.

(** C7 on a sample: the API server answers with a conflict. *)
Lemma status_write_failure_is_logged_witness :
  exists w' tr,
    updateChartMgrStatus (Sample.env (Sample.helmOk Sample.slow) false Sample.storeConflict)
      0%nat (Some Sample.slow) "DEPLOYED" Sample.w0 = Ret tt w' /\
    trace w' = tr ++ [ELog Error "Failed to update status: the object has been modified"].
Proof.
  destruct (status_write_failure_is_logged
              (Sample.env (Sample.helmOk Sample.slow) false Sample.storeConflict)
              0%nat Sample.web Sample.slow "DEPLOYED" "the object has been modified"
              Sample.w0 eq_refl eq_refl)
    as (_ & w' & tr & Hrun & Htr & _).
  exists w', tr. split; [exact Hrun | exact Htr].
Defined.

(** C7, as it is stated, fails: the status writer returns nothing, so its
    caller cannot learn of a failed PUT.  After a conflict [updateStatus]
    still returns [nil] to the handler, and no reading of the writer's result
    tells a refused write from an accepted one. *)
Lemma status_write_failure_not_returned :
  (exists w',
     updateStatus (Sample.env (Sample.helmOk Sample.slow) false Sample.storeConflict)
       0%nat (Some Sample.slow) Sample.w0 = Ret None w' /\
     last (trace w') =
       Some (ELog Error "Failed to update status: the object has been modified")) /\
  ~ (exists observe : unit -> error,
       forall c (p : ptr) cm r message w a w',
         heap w !! p = Some cm ->
         updateChartMgrStatus c p (Some r) message w = Ret a w' ->
         observe a =
         answer (restPut c (Name (Meta cm)) (Namespace (Meta cm)) (ChartMgrResourcePlural c)
                   (withStatus cm {| State := rlsStatus r (clock w);
                                     ReleaseName := rlsName r; Message := message |})
                   (clock w))).
Proof.
  split.
  - eexists. split; vm_compute; reflexivity.
  - intros [observe Hall].
    pose proof (Hall (Sample.env (Sample.helmOk Sample.slow) false Sample.storeConflict)
                  0%nat Sample.web Sample.slow "m" Sample.w0 tt _ eq_refl
                  (updateChartMgrStatus_run
                     (Sample.env (Sample.helmOk Sample.slow) false Sample.storeConflict)
                     0%nat Sample.web Sample.slow "m" Sample.w0 eq_refl)) as Hbad.
    pose proof (Hall (Sample.env (Sample.helmOk Sample.slow) false Sample.storeOk)
                  0%nat Sample.web Sample.slow "m" Sample.w0 tt _ eq_refl
                  (updateChartMgrStatus_run
                     (Sample.env (Sample.helmOk Sample.slow) false Sample.storeOk)
                     0%nat Sample.web Sample.slow "m" Sample.w0 eq_refl)) as Hgood.
    cbn in Hbad, Hgood. congruence.
Qed.

(** C8, as it is stated, fails: [Run] does not return [nil] on a clean
    shutdown.  With a context cancelled by its cancel function it returns the
    error of the context, and there is no run of [Run] that returns [nil]. *)
Lemma Run_clean_shutdown_not_nil :
  Run (Sample.env (Sample.helmOk Sample.slow) false Sample.storeOk) Sample.cancelled
    Sample.w0 =
  Ret (Some "context canceled")
    {| clock := 7; heap := [Sample.web];
       trace := [EGo (InformerRun "chartmgrs" "" 0 (Some 7));
                 ELog Info "Successfully started Chart Manager controller"] |} /\
  ~ (exists c ctx w w', Run c ctx w = Ret None w').
Proof.
  split; [reflexivity |].
  intros (c & ctx & w & w' & Hrun). revert Hrun. unfold Run. mrun.
  destruct (doneAt ctx) as [t |]; mrun; [| discriminate].
  destruct (Z.leb_spec t (Z.max (clock w) t)); [discriminate | lia].
Qed.


(** * Further properties *)

(** ** The wait, poll by poll *)

Section FirstReady.

Variable r : Release.
Variable d : time.Duration.
Hypothesis d_pos : 0 < d.
Hypothesis answered_in_time : forall t, Z.of_N (took (rlsDeployed r t)) <= d.

(** From the [k]-th tick on, with the deadline on the [k+n]-th: the outcome
    is decided by the answers on the ticks before the deadline.  If the
    [N]-th of them is the first [true], the loop returns [nil] when that
    answer arrives; if none is, it returns the timeout on the deadline. *)
Lemma waitLoop_decided n : forall tm tk w (k : nat),
  period tk = d ->
  lastRecv tk = origin tk + Z.of_nat k * d ->
  clock w = lastRecv tk ->
  deadline tm = origin tk + Z.of_nat (k + n) * d ->
  (forall N : nat,
     (N < n)%nat ->
     (forall i : nat, (i < N)%nat -> readyOnTick r d (clock w) i = false) ->
     readyOnTick r d (clock w) N = true ->
     exists w',
       waitLoop (S n) (Some r) tm tk w = Ret None w' /\
       clock w' = clock w + Z.of_nat N * d +
                  Z.of_N (took (rlsDeployed r (clock w + Z.of_nat N * d)))) /\
  ((forall i : nat, (i < n)%nat -> readyOnTick r d (clock w) i = false) ->
   exists w',
     waitLoop (S n) (Some r) tm tk w = Ret (Some timedOut) w' /\
     clock w' = deadline tm).
Proof.
  induction n as [| n IH]; intros tm tk w k Hd Hlast Hclk Hdl.
  - split; [intros N HN; lia |]. intros _.
    rewrite Nat.add_0_r in Hdl. rewrite waitLoop_expired by lia.
    exists w. split; [reflexivity | lia].
  - rewrite waitLoop_step.
    assert (Hnot : clock w < deadline tm) by nia.
    destruct (Z.leb_spec (deadline tm) (clock w)) as [Hexp | _]; [lia |].
    assert (H0 : readyOnTick r d (clock w) 0 = answer (rlsDeployed r (clock w))).
    { unfold readyOnTick. f_equal. f_equal. lia. }
    pose proof (wake_on_next_tick r d d_pos answered_in_time tk w k Hd Hlast Hclk) as Hwake.
    assert (Hshift : forall i : nat,
              readyOnTick r d (clock (afterTick tk (afterCheck r w))) i =
              readyOnTick r d (clock w) (S i)).
    { intros i. unfold readyOnTick, afterTick. cbv zeta. cbn [clock]. rewrite Hwake.
      f_equal. f_equal. lia. }
    destruct (IH tm (received tk (afterCheck r w)) (afterTick tk (afterCheck r w)) (S k))
      as [IHready IHnever].
    { exact Hd. }
    { unfold received. cbn [origin period lastRecv]. rewrite Hwake. lia. }
    { reflexivity. }
    { unfold received. cbn [origin]. rewrite Hdl. f_equal. f_equal. lia. }
    split.
    + intros N HN Hbefore Hready. destruct N as [| N].
      * rewrite H0 in Hready. rewrite Hready. eexists. split; [reflexivity |].
        unfold afterCheck. cbv zeta. cbn [clock].
        replace (clock w + Z.of_nat 0 * d) with (clock w) by lia. lia.
      * pose proof (Hbefore 0%nat ltac:(lia)) as Hfirst. rewrite H0 in Hfirst.
        rewrite Hfirst.
        destruct (IHready N ltac:(lia)) as (w' & Hrun & Hclock).
        { intros i Hi. rewrite Hshift. apply Hbefore. lia. }
        { rewrite Hshift. exact Hready. }
        exists w'. split; [exact Hrun |]. rewrite Hclock.
        unfold afterTick. cbv zeta. cbn [clock]. rewrite Hwake.
        replace (clock w + d + Z.of_nat N * d) with (clock w + Z.of_nat (S N) * d) by lia.
        reflexivity.
    + intros Hnever. pose proof (Hnever 0%nat ltac:(lia)) as Hfirst. rewrite H0 in Hfirst.
      rewrite Hfirst. apply IHnever. intros i Hi. rewrite Hshift. apply Hnever. lia.
Qed.

End FirstReady.

(** ** What a handler does to the executor, the store and the heap *)

Lemma executorCalls_app tr1 tr2 :
  executorCalls (tr1 ++ tr2) = executorCalls tr1 ++ executorCalls tr2.
Proof. apply List.filter_app. Qed.

Lemma waitEvent_no_executor r dl evs :
  Forall (waitEvent r dl) evs -> executorCalls evs = [].
Proof.
  induction 1 as [| e evs He _ IH]; [reflexivity |].
  destruct e as [[] | | | | | |]; cbn in He |- *; try contradiction; exact IH.
Qed.

Lemma executorCalls_afterApply c cm w :
  executorCalls (trace (afterApply c cm w)) = executorCalls (trace w) ++ [ECreateOrUpdate cm].
Proof.
  unfold afterApply. cbv zeta. cbn [trace]. rewrite executorCalls_app.
  destruct (snd _); reflexivity.
Qed.

Lemma executorCalls_afterStatusWrite c cm r message w :
  executorCalls (trace (afterStatusWrite c cm r message w)) = executorCalls (trace w).
Proof.
  unfold afterStatusWrite. cbv zeta. cbn [trace]. rewrite executorCalls_app.
  destruct (answer _); cbn; by rewrite app_nil_r.
Qed.

(** Whatever way the handler ends, it has called the executor once, and it
    has either written nothing and left the heap alone, or sent one PUT for
    the resource with a new status and added that very object to the heap. *)
Lemma applyEnd_effects c cm w w' :
  applyEnd c cm w w' ->
  executorCalls (trace w') = executorCalls (trace w) ++ [ECreateOrUpdate cm] /\
  ((statusWrites (trace w') = statusWrites (trace w) /\ heap w' = heap w) \/
   exists st,
     statusWrites (trace w') =
       statusWrites (trace w) ++
       [EPut (Name (Meta cm)) (Namespace (Meta cm)) (ChartMgrResourcePlural c)
          (withStatus cm st)] /\
     heap w' = heap w ++ [withStatus cm st]).
Proof.
  intros Hend. destruct Hend
    as [logs w' Hheap Htrace Hlogs | r e | r err w1 evs logs w' Hh1 Ht1 Hev Hheap Htrace Hlogs].
  - destruct (logs_quiet logs Hlogs) as [Hx Hp].
    rewrite Htrace, executorCalls_app, statusWrites_app, Hx, Hp, !app_nil_r.
    split; [apply executorCalls_afterApply |].
    left. split; [apply statusWrites_afterApply | exact Hheap].
  - split; [by rewrite executorCalls_afterStatusWrite, executorCalls_afterApply |].
    right. eexists. split.
    + rewrite statusWrites_afterStatusWrite, statusWrites_afterApply. reflexivity.
    + reflexivity.
  - destruct (logs_quiet logs Hlogs) as [Hx Hp].
    rewrite Htrace, executorCalls_app, statusWrites_app, Hx, Hp, !app_nil_r.
    split.
    + unfold afterUpdateStatus. rewrite executorCalls_afterStatusWrite. cbn [trace].
      rewrite Ht1, !executorCalls_app, (waitEvent_no_executor _ _ _ Hev).
      rewrite executorCalls_afterApply. destruct err; cbn; by rewrite !app_nil_r.
    + right. eexists. split.
      * rewrite (statusWrites_afterUpdateStatus c cm r err _ w1 evs Ht1 Hev).
        rewrite statusWrites_afterApply. reflexivity.
      * rewrite Hheap. unfold afterUpdateStatus, afterStatusWrite. cbv zeta. cbn [heap].
        by rewrite Hh1.
Qed.

(** A wait on the nil handle panics in its first pass, at [rls.Name()]. *)
Lemma waitForReleaseToDeploy_nil w : waitForReleaseToDeploy None w = Panic w.
Proof.
  rewrite waitForReleaseToDeploy_unfold. change waitFuel with 5%nat.
  cbn [waitLoop]. mrun. cbn [deadline].
  destruct (Z.leb_spec (clock w + 2 * time.Minute) (clock w)) as [Hle | _];
    [durations; lia | reflexivity].
Qed.

Lemma updateStatus_nil c p w : updateStatus c p None w = Panic w.
Proof. unfold updateStatus. mrun. by rewrite waitForReleaseToDeploy_nil. Qed.

Lemma addFunc_ok_nil c p cm w :
  heap w !! p = Some cm ->
  answer (helmCreateOrUpdate c cm (clock w)) = (None, None) ->
  addFunc c (ObjChartManager p) w = Panic (afterApply c cm w).
Proof.
  intros Hp Hans. rewrite (afterApply_ok _ _ _ _ Hans).
  unfold addFunc. mrun. rewrite Hp. mrun. rewrite Hans. mrun.
  by rewrite updateStatus_nil.
Qed.

Lemma updateFunc_ok_nil c old p cm w :
  heap w !! p = Some cm ->
  answer (helmCreateOrUpdate c cm (clock w)) = (None, None) ->
  isCreateOnly c cm = false ->
  updateFunc c (ObjChartManager old) (ObjChartManager p) w = Panic (afterApply c cm w).
Proof.
  intros Hp Hans Hco. rewrite (afterApply_ok _ _ _ _ Hans).
  unfold updateFunc. mrun. rewrite Hp. mrun. rewrite Hans. mrun. rewrite Hp. mrun.
  rewrite Hco. mrun. by rewrite updateStatus_nil.
Qed.

Lemma addFunc_end c p cm w :
  heap w !! p = Some cm ->
  applyEnd c cm w (worldOf (addFunc c (ObjChartManager p) w)).
Proof.
  intros Hp.
  destruct (answer (helmCreateOrUpdate c cm (clock w))) as [h [e |]] eqn:Hans.
  - rewrite (addFunc_error c p cm h e w Hp Hans). destruct h as [r |].
    + erewrite updateChartMgrStatus_run by exact Hp. apply end_failed.
    + rewrite updateChartMgrStatus_nil. by apply (end_quiet c cm w []); rewrite ?app_nil_r.
  - destruct h as [r |].
    + destruct (waitForReleaseToDeploy_sound r (afterApply c cm w))
        as (err & w1 & evs & Hwait & Hheap & Htrace & Hev & _ & _).
      rewrite (addFunc_ok c p cm r w err w1 Hp Hans Hwait Hheap). cbn [worldOf].
      destruct err as [e |]; cbn [afterAdd].
      * apply (end_waited c cm w r (Some e) w1 evs []); auto. by rewrite app_nil_r.
      * eapply (end_waited c cm w r None w1 evs); eauto; try reflexivity.
        repeat constructor.
    + rewrite (addFunc_ok_nil c p cm w Hp Hans). by apply (end_quiet c cm w []); rewrite ?app_nil_r.
Qed.

Lemma updateFunc_end c old p cm w :
  heap w !! p = Some cm ->
  applyEnd c cm w (worldOf (updateFunc c (ObjChartManager old) (ObjChartManager p) w)).
Proof.
  intros Hp.
  destruct (answer (helmCreateOrUpdate c cm (clock w))) as [h [e |]] eqn:Hans.
  - rewrite (updateFunc_error c old p cm h e w Hp Hans). destruct h as [r |].
    + erewrite updateChartMgrStatus_run by exact Hp. apply end_failed.
    + rewrite updateChartMgrStatus_nil. by apply (end_quiet c cm w []); rewrite ?app_nil_r.
  - destruct (isCreateOnly c cm) eqn:Hco.
    { rewrite (updateFunc_create_only c old p cm h w Hp Hans Hco). cbn [worldOf].
      eapply (end_quiet c cm w [ELog Info _]); cbn [heap trace];
        [reflexivity | | repeat constructor].
      rewrite (afterApply_ok _ _ _ _ Hans). cbn [trace]. rewrite <- app_assoc.
      reflexivity. }
    destruct h as [r |].
    + destruct (waitForReleaseToDeploy_sound r (afterApply c cm w))
        as (err & w1 & evs & Hwait & Hheap & Htrace & Hev & _ & _).
      rewrite (updateFunc_ok c old p cm r w err w1 Hp Hans Hco Hwait Hheap). cbn [worldOf].
      destruct err as [e |]; cbn [afterUpdate].
      * apply (end_waited c cm w r (Some e) w1 evs []); auto. by rewrite app_nil_r.
      * eapply (end_waited c cm w r None w1 evs); eauto; try reflexivity.
        repeat constructor.
    + rewrite (updateFunc_ok_nil c old p cm w Hp Hans Hco). by apply (end_quiet c cm w []); rewrite ?app_nil_r.
Qed.

Lemma addFunc_dangling c (p : ptr) w :
  heap w !! p = None -> addFunc c (ObjChartManager p) w = Panic w.
Proof. intros Hp. unfold addFunc. mrun. by rewrite Hp. Qed.

Lemma updateFunc_dangling c (old p : ptr) w :
  heap w !! p = None ->
  updateFunc c (ObjChartManager old) (ObjChartManager p) w = Panic w.
Proof. intros Hp. unfold updateFunc. mrun. by rewrite Hp. Qed.

(** An event whose objects are not all [ChartManager]s, or whose resource is
    not in the heap, makes its handler panic before anything is done. *)
Lemma dispatch_rejects c ev w : subject ev w = None -> dispatch c ev w = Panic w.
Proof.
  destruct ev as [[p | ty] | [old | ty] [p | ty'] | [p | ty]]; cbn [subject dispatch];
    intros Hs; try reflexivity.
  - by apply addFunc_dangling.
  - by apply updateFunc_dangling.
  - by apply deleteFunc_dangling.
Qed.

(** X2. One executor call per event: the handler of an event about a
    resource calls the executor exactly once in all (create-or-update for an
    add or an update, delete for a delete), however the call, the wait and
    the status write end; it never calls it again.  An event that is not
    about a resource (an object of another type, also as the old object of an
    update) makes the handler panic before it does anything. *)
Theorem dispatch_calls_executor_once (c : Env) (ev : WatchEvent) (w : World) :
  match subject ev w with
  | Some cm =>
      executorCalls (trace (worldOf (dispatch c ev w))) =
      executorCalls (trace w) ++ [executorCall ev cm]
  | None => dispatch c ev w = Panic w
  end.
Proof.
  destruct (subject ev w) as [cm |] eqn:Hs; [| by apply dispatch_rejects].
  destruct ev as [[p | ty] | [old | ty] [p | ty'] | [p | ty]];
    cbn [subject dispatch executorCall] in *; try discriminate.
  - exact (proj1 (applyEnd_effects c cm w _ (addFunc_end c p cm w Hs))).
  - exact (proj1 (applyEnd_effects c cm w _ (updateFunc_end c old p cm w Hs))).
  - rewrite (deleteFunc_run c p cm w Hs). cbn [worldOf trace].
    rewrite executorCalls_app. f_equal. by destruct (snd _).
Qed.

(** X3. At most one status write per event, and only of the status: the
    handler of an event either sends no PUT and leaves the heap as it was, or
    sends exactly one PUT, addressed by the name and namespace of the event's
    resource and carrying that resource with nothing but its status replaced,
    and adds that one object to the heap; the objects that were in the heap
    stay as they were. *)
Theorem dispatch_writes_status_at_most_once (c : Env) (ev : WatchEvent) (w : World) :
  (statusWrites (trace (worldOf (dispatch c ev w))) = statusWrites (trace w) /\
   heap (worldOf (dispatch c ev w)) = heap w) \/
  (exists cm st,
     subject ev w = Some cm /\
     statusWrites (trace (worldOf (dispatch c ev w))) =
       statusWrites (trace w) ++
       [EPut (Name (Meta cm)) (Namespace (Meta cm)) (ChartMgrResourcePlural c)
          {| Meta := Meta cm; Spec := Spec cm; Status := st |}] /\
     heap (worldOf (dispatch c ev w)) =
       heap w ++ [{| Meta := Meta cm; Spec := Spec cm; Status := st |}]).
Proof.
  destruct (subject ev w) as [cm |] eqn:Hs;
    [| left; by rewrite (dispatch_rejects c ev w Hs)].
  assert (Happly : forall w',
            applyEnd c cm w w' ->
            (statusWrites (trace w') = statusWrites (trace w) /\ heap w' = heap w) \/
            (exists cm0 st,
               Some cm = Some cm0 /\
               statusWrites (trace w') =
                 statusWrites (trace w) ++
                 [EPut (Name (Meta cm0)) (Namespace (Meta cm0)) (ChartMgrResourcePlural c)
                    {| Meta := Meta cm0; Spec := Spec cm0; Status := st |}] /\
               heap w' = heap w ++ [{| Meta := Meta cm0; Spec := Spec cm0; Status := st |}])).
  { intros w' Hend. destruct (applyEnd_effects c cm w w' Hend) as [_ [Hq | (st & Hw & Hh)]].
    - by left.
    - right. exists cm, st. by split. }
  destruct ev as [[p | ty] | [old | ty] [p | ty'] | [p | ty]];
    cbn [subject dispatch] in *; try discriminate.
  - apply Happly. by apply addFunc_end.
  - apply Happly. by apply updateFunc_end.
  - left. rewrite (deleteFunc_run c p cm w Hs). cbn [worldOf trace heap].
    rewrite statusWrites_app. split; [| reflexivity].
    destruct (snd _); cbn; by rewrite app_nil_r.
Qed.

(** X4. The number of polls: a wait on a handle makes at least one and at
    most four readiness checks, however long the queries take, and receives
    one tick between two checks: as many ticks as checks before a timeout,
    one less before a success. *)
Theorem wait_polls_one_to_four_times (r : Release) (w : World) :
  exists (err : error) (w' : World) (evs : list Event),
    waitForReleaseToDeploy (Some r) w = Ret err w' /\
    trace w' = trace w ++ evs /\
    (1 <= length (readinessChecks evs) <= 4)%nat /\
    length (ticksReceived evs) =
      match err with
      | Some _ => length (readinessChecks evs)
      | None => pred (length (readinessChecks evs))
      end.
Proof.
  rewrite waitForReleaseToDeploy_unfold. change waitFuel with 5%nat.
  destruct (waitLoop_polls 4 r _ _ w (loopInv_start w))
    as (err & w' & evs & Hrun & Htrace & Hle & Hone & Hticks).
  exists err, w', evs. split; [exact Hrun |]. split; [exact Htrace |].
  split; [| exact Hticks]. split; [| exact Hle].
  apply Hone. left. cbn [deadline]. durations. lia.
Qed.

(** X5. The overrun of the deadline: when every readiness query is answered
    within [L], a wait ends less than the longer of [L] and one tick interval
    after its 2 minutes. *)
Theorem wait_overrun_is_bounded (r : Release) (L : Z) (w : World) :
  (forall t, Z.of_N (took (rlsDeployed r t)) <= L) ->
  exists (err : error) (w' : World),
    waitForReleaseToDeploy (Some r) w = Ret err w' /\
    clock w' < clock w + 2 * time.Minute + Z.max L (30 * time.Second).
Proof.
  intros Hlat. rewrite waitForReleaseToDeploy_unfold. change waitFuel with 5%nat.
  destruct (waitLoop_overrun 4 r L _ _ w Hlat (loopInv_start w))
    as (err & w' & Hrun & Hclk).
  - cbn [deadline period]. pose proof (Hlat 0). durations. lia.
  - exists err, w'. split; [exact Hrun | exact Hclk].
Qed.

(** X6. The outcome is decided on the ticks: when every readiness query is
    answered within one tick interval, a wait asks at the call and 30, 60 and
    90 seconds later, and only the answers at those instants count.  If the
    [N]-th of them is the first [true], the wait returns [nil] [N] tick
    intervals after the call, as soon as that answer is in; if all four are
    [false], it returns the timeout 2 minutes after the call. *)
Theorem wait_is_decided_on_the_ticks (r : Release) (w : World) :
  (forall t, Z.of_N (took (rlsDeployed r t)) <= 30 * time.Second) ->
  (forall N : nat,
     (N < 4)%nat ->
     (forall i : nat, (i < N)%nat -> readyOnTick r (30 * time.Second) (clock w) i = false) ->
     readyOnTick r (30 * time.Second) (clock w) N = true ->
     exists w',
       waitForReleaseToDeploy (Some r) w = Ret None w' /\
       clock w' =
         clock w + Z.of_nat N * (30 * time.Second) +
         Z.of_N (took (rlsDeployed r (clock w + Z.of_nat N * (30 * time.Second))))) /\
  ((forall i : nat, (i < 4)%nat -> readyOnTick r (30 * time.Second) (clock w) i = false) ->
   exists w',
     waitForReleaseToDeploy (Some r) w = Ret (Some timedOut) w' /\
     clock w' = clock w + 2 * time.Minute).
Proof.
  intros Hlat. rewrite waitForReleaseToDeploy_unfold. change waitFuel with 5%nat.
  apply (waitLoop_decided r (30 * time.Second) eq_refl Hlat 4
           {| deadline := clock w + 2 * time.Minute |}
           {| origin := clock w; period := 30 * time.Second; lastRecv := clock w |} w 0);
    cbn [origin period lastRecv deadline]; durations; lia.
Qed.

(** X7. An update is an add, unless create-only: for a resource that is not
    create-only, [updateFunc] and [addFunc] end the same way (both return or
    both panic), at the same instant, with the same heap and with the same
    trace up to the lines they log last: the same executor call, the same
    readiness checks, the same status write.  The old object of the update
    plays no part. *)
Theorem update_is_add_unless_create_only
    (c : Env) (old p : ptr) (cm : ChartManager) (w : World) :
  heap w !! p = Some cm ->
  isCreateOnly c cm = false ->
  exists (w2 : World) (la lu : list Event),
    Forall isLog la /\ Forall isLog lu /\
    trace (worldOf (addFunc c (ObjChartManager p) w)) = trace w2 ++ la /\
    trace (worldOf (updateFunc c (ObjChartManager old) (ObjChartManager p) w)) =
      trace w2 ++ lu /\
    heap (worldOf (addFunc c (ObjChartManager p) w)) = heap w2 /\
    heap (worldOf (updateFunc c (ObjChartManager old) (ObjChartManager p) w)) = heap w2 /\
    clock (worldOf (addFunc c (ObjChartManager p) w)) = clock w2 /\
    clock (worldOf (updateFunc c (ObjChartManager old) (ObjChartManager p) w)) = clock w2 /\
    ((exists wa, addFunc c (ObjChartManager p) w = Ret tt wa) <->
     (exists wu, updateFunc c (ObjChartManager old) (ObjChartManager p) w = Ret tt wu)).
Proof.
  intros Hp Hco.
  destruct (answer (helmCreateOrUpdate c cm (clock w))) as [h [e |]] eqn:Hans.
  - rewrite (addFunc_error c p cm h e w Hp Hans), (updateFunc_error c old p cm h e w Hp Hans).
    exists (worldOf (updateChartMgrStatus c p h e (afterApply c cm w))), [], [].
    rewrite app_nil_r. repeat split; auto.
  - destruct h as [r |].
    + destruct (waitForReleaseToDeploy_sound r (afterApply c cm w))
        as (err & w1 & evs & Hwait & Hheap & _).
      rewrite (addFunc_ok c p cm r w err w1 Hp Hans Hwait Hheap).
      rewrite (updateFunc_ok c old p cm r w err w1 Hp Hans Hco Hwait Hheap).
      cbn [worldOf]. exists (afterUpdateStatus c cm r err w1).
      destruct err as [e |]; cbn [afterAdd afterUpdate].
      * exists [], []. rewrite app_nil_r. repeat split; eauto.
      * do 2 eexists. cbn [trace heap clock].
        split; [| split; [| split; [reflexivity | split; [reflexivity |]]]];
          [repeat constructor | repeat constructor |].
        repeat split; eauto.
    + rewrite (addFunc_ok_nil c p cm w Hp Hans), (updateFunc_ok_nil c old p cm w Hp Hans Hco).
      exists (afterApply c cm w), [], []. rewrite app_nil_r. cbn [worldOf].
      repeat split; auto; intros [? [=]].
Qed.

(** ** Construction *)

Section ConstructionProofs.

Context {restConfig config client scheme helmClient : Type}.

(** X1. Construction fails fast: [New] makes its three calls in order, each
    with the REST configuration the first one returned, and stops at the
    first one that returns an error.  It returns that error and no
    controller; when no call fails it returns a controller and no error, and
    the controller holds the configuration it was given and what the calls
    returned. *)
Theorem New_stops_at_first_error
    (b : Bootstrap restConfig config client scheme helmClient) (chartmgrconfig : config) :
  exists (done : list (BootCall restConfig config)) (final : BootCall restConfig config),
    fst (New b chartmgrconfig) = done ++ [final] /\
    done ++ [final] = take (S (length done)) (bootSequence b chartmgrconfig) /\
    Forall (fun call => errorOf b call = None) done /\
    snd (snd (New b chartmgrconfig)) = errorOf b final /\
    match errorOf b final with
    | Some _ => fst (snd (New b chartmgrconfig)) = None
    | None =>
        length done = 2%nat /\
        fst (snd (New b chartmgrconfig)) =
        Some {| Client := fst (fst (NewForConfig b (fst (InClusterConfig b))));
                ChartMgrScheme := snd (fst (NewForConfig b (fst (InClusterConfig b))));
                Config := chartmgrconfig;
                HelmClient := fst (helmInit b chartmgrconfig (fst (InClusterConfig b))) |}
    end.
Proof.
  unfold New, bootSequence.
  destruct (InClusterConfig b) as [restconfig [e1 |]] eqn:H1; cbn [fst snd].
  { exists [], CallInClusterConfig. cbn. rewrite ?H1. cbn. repeat split; auto; repeat (constructor; cbn; rewrite ?H1, ?H2, ?H3; auto). }
  destruct (NewForConfig b restconfig) as [[cl sch] [e2 |]] eqn:H2; cbn [fst snd].
  { exists [CallInClusterConfig], (CallNewForConfig restconfig). cbn. rewrite ?H1, ?H2. cbn.
    repeat split; auto; repeat (constructor; cbn; rewrite ?H1, ?H2, ?H3; auto). }
  destruct (helmInit b chartmgrconfig restconfig) as [helm [e3 |]] eqn:H3; cbn [fst snd].
  - exists [CallInClusterConfig; CallNewForConfig restconfig],
      (CallHelmInit chartmgrconfig restconfig).
    cbn. rewrite ?H1, ?H2, ?H3. cbn. repeat split; auto; repeat (constructor; cbn; rewrite ?H1, ?H2, ?H3; auto).
  - exists [CallInClusterConfig; CallNewForConfig restconfig],
      (CallHelmInit chartmgrconfig restconfig).
    cbn. rewrite ?H1, ?H2, ?H3. cbn. repeat split; auto; repeat (constructor; cbn; rewrite ?H1, ?H2, ?H3; auto).
Qed.

End ConstructionProofs.

(** ** How long a handler runs *)

Lemma clock_afterAdd cm r err w2 : clock (afterAdd cm r err w2) = clock w2.
Proof. by destruct err. Qed.

Lemma clock_afterUpdate cm err w2 : clock (afterUpdate cm err w2) = clock w2.
Proof. by destruct err. Qed.

(** X8. A handler ends in bounded time: when, for the resource of an event,
    the executor answers within [E], the API server within [S] and the
    readiness queries of the handle the executor returns within [L], the
    handler of the event ends less than [E], 2 minutes, the longer of [L] and
    one tick interval, and [S] after it began, whichever way it ends. *)
Theorem dispatch_ends_in_bounded_time
    (c : Env) (ev : WatchEvent) (cm : ChartManager) (E S L : Z) (w : World) :
  subject ev w = Some cm ->
  (forall t, Z.of_N (took (helmCreateOrUpdate c cm t)) <= E) ->
  (forall t, Z.of_N (took (helmDelete c cm t)) <= E) ->
  (forall name namespace resource body t,
     Z.of_N (took (restPut c name namespace resource body t)) <= S) ->
  (forall r t,
     fst (answer (helmCreateOrUpdate c cm (clock w))) = Some r ->
     Z.of_N (took (rlsDeployed r t)) <= L) ->
  clock (worldOf (dispatch c ev w)) <
  clock w + E + 2 * time.Minute + Z.max L (30 * time.Second) + S.
Proof.
  intros Hs HE HD HS HL.
  pose proof (HE (clock w)) as He. pose proof (HD (clock w)) as Hd.
  assert (HS0 : 0 <= S).
  { pose proof (HS "" "" "" cm 0). lia. }
  assert (Hmin : 0 < 2 * time.Minute) by (durations; lia).
  assert (Hmax : 0 < Z.max L (30 * time.Second)) by (durations; lia).
  assert (Hquiet : clock (afterApply c cm w) =
                   clock w + Z.of_N (took (helmCreateOrUpdate c cm (clock w))))
    by reflexivity.
  assert (Hwritten : forall r e,
            clock (afterStatusWrite c cm r e (afterApply c cm w)) <=
            clock w + Z.of_N (took (helmCreateOrUpdate c cm (clock w))) + S).
  { intros r e. unfold afterStatusWrite. cbv zeta. cbn [clock]. rewrite Hquiet.
    match goal with |- context [took ?x] =>
      match x with restPut _ _ _ _ _ _ => pose proof (HS _ _ _ _ _ : Z.of_N (took x) <= S) end
    end. lia. }
  assert (Hwaited : forall r err w1,
            fst (answer (helmCreateOrUpdate c cm (clock w))) = Some r ->
            waitForReleaseToDeploy (Some r) (afterApply c cm w) = Ret err w1 ->
            clock (afterUpdateStatus c cm r err w1) <
            clock (afterApply c cm w) + 2 * time.Minute + Z.max L (30 * time.Second) + S).
  { intros r err w1 Hr Hwait.
    rewrite waitForReleaseToDeploy_unfold in Hwait. change waitFuel with 5%nat in Hwait.
    destruct (waitLoop_overrun 4 r L _ _ (afterApply c cm w) (fun t => HL r t Hr)
                (loopInv_start (afterApply c cm w)))
      as (err2 & w2 & Hrun & Hclk).
    { cbn [deadline period]. lia. }
    rewrite Hwait in Hrun. injection Hrun as <- <-.
    cbn [deadline period] in Hclk.
    unfold afterUpdateStatus, afterStatusWrite. cbv zeta. cbn [clock].
    match goal with |- context [took ?x] =>
      match x with restPut _ _ _ _ _ _ => pose proof (HS _ _ _ _ _ : Z.of_N (took x) <= S) end
    end. lia. }
  destruct ev as [[p | ty] | [old | ty] [p | ty'] | [p | ty]];
    cbn [subject dispatch] in *; try discriminate.
  - destruct (answer (helmCreateOrUpdate c cm (clock w))) as [h [e |]] eqn:Hans.
    + rewrite (addFunc_error c p cm h e w Hs Hans). destruct h as [r |].
      * erewrite updateChartMgrStatus_run by exact Hs. cbn [worldOf].
        specialize (Hwritten r e). lia.
      * rewrite updateChartMgrStatus_nil. cbn [worldOf]. lia.
    + destruct h as [r |].
      * destruct (waitForReleaseToDeploy_sound r (afterApply c cm w))
          as (err & w1 & evs & Hwait & Hheap & _).
        rewrite (addFunc_ok c p cm r w err w1 Hs Hans Hwait Hheap). cbn [worldOf].
        rewrite clock_afterAdd. specialize (Hwaited r err w1 eq_refl Hwait). lia.
      * rewrite (addFunc_ok_nil c p cm w Hs Hans). cbn [worldOf]. lia.
  - destruct (answer (helmCreateOrUpdate c cm (clock w))) as [h [e |]] eqn:Hans.
    + rewrite (updateFunc_error c old p cm h e w Hs Hans). destruct h as [r |].
      * erewrite updateChartMgrStatus_run by exact Hs. cbn [worldOf].
        specialize (Hwritten r e). lia.
      * rewrite updateChartMgrStatus_nil. cbn [worldOf]. lia.
    + destruct (isCreateOnly c cm) eqn:Hco.
      { rewrite (updateFunc_create_only c old p cm h w Hs Hans Hco). cbn [worldOf clock]. lia. }
      destruct h as [r |].
      * destruct (waitForReleaseToDeploy_sound r (afterApply c cm w))
          as (err & w1 & evs & Hwait & Hheap & _).
        rewrite (updateFunc_ok c old p cm r w err w1 Hs Hans Hco Hwait Hheap). cbn [worldOf].
        rewrite clock_afterUpdate. specialize (Hwaited r err w1 eq_refl Hwait). lia.
      * rewrite (updateFunc_ok_nil c old p cm w Hs Hans Hco). cbn [worldOf]. lia.
  - rewrite (deleteFunc_run c p cm w Hs). cbn [worldOf clock]. lia.
Qed.

(** ** The further properties on the sample worlds *)

(** X5 on a sample: queries that take 50 s each. *)
Lemma wait_overrun_is_bounded_witness :
  exists err w',
    waitForReleaseToDeploy (Some Cases.sluggish) Sample.w0 = Ret err w' /\
    clock w' < 2 * time.Minute + 50 * time.Second.
Proof.
  destruct (wait_overrun_is_bounded Cases.sluggish (50 * time.Second) Sample.w0)
    as (err & w' & Hrun & Hclk).
  { intros t. cbn. durations. lia. }
  exists err, w'. split; [exact Hrun |]. cbn in Hclk. durations. lia.
Defined.

(** X6 on a sample: a release that is ready after 45 s is found ready on the
    second tick. *)
Lemma wait_is_decided_on_the_ticks_witness :
  exists w',
    waitForReleaseToDeploy (Some Sample.slow) Sample.w0 = Ret None w' /\
    clock w' = 60002000000.
Proof.
  destruct (wait_is_decided_on_the_ticks Sample.slow Sample.w0) as [Hready _].
  { intros t. cbn. durations. lia. }
  destruct (Hready 2%nat) as (w' & Hrun & Hclk).
  { lia. }
  { intros i Hi. destruct i as [| [| i]]; [reflexivity | reflexivity | lia]. }
  { reflexivity. }
  exists w'. split; [exact Hrun | exact Hclk].
Defined.

(** X7 on a sample: a release that is ready after 45 s. *)
Lemma update_is_add_unless_create_only_witness :
  (exists wa,
     addFunc (Sample.env (Sample.helmOk Sample.slow) false Sample.storeOk)
       (ObjChartManager 0) Sample.w0 = Ret tt wa) <->
  (exists wu,
     updateFunc (Sample.env (Sample.helmOk Sample.slow) false Sample.storeOk)
       (ObjChartManager 0) (ObjChartManager 0) Sample.w0 = Ret tt wu).
Proof.
  destruct (update_is_add_unless_create_only
              (Sample.env (Sample.helmOk Sample.slow) false Sample.storeOk)
              0%nat 0%nat Sample.web Sample.w0 eq_refl eq_refl)
    as (w2 & la & lu & _ & _ & _ & _ & _ & _ & _ & _ & Hiff).
  exact Hiff.
Defined.

(** X8 on a sample: an executor that answers in 5 ms, a store in 1 ms, a
    handle in 2 ms. *)
Lemma dispatch_ends_in_bounded_time_witness :
  clock (worldOf (dispatch (Sample.env (Sample.helmOk Sample.slow) false Sample.storeOk)
                    (Added (ObjChartManager 0)) Sample.w0)) <
  2 * time.Minute + 30 * time.Second + 6000000.
Proof.
  pose proof (dispatch_ends_in_bounded_time
                (Sample.env (Sample.helmOk Sample.slow) false Sample.storeOk)
                (Added (ObjChartManager 0)) Sample.web 5000000 1000000 2000000 Sample.w0
                eq_refl) as Hbound.
  cbn [clock Sample.w0] in Hbound.
  assert (Hmax : Z.max 2000000 (30 * time.Second) = 30 * time.Second) by (durations; lia).
  rewrite Hmax in Hbound.
  assert (Hlt : forall x, x < 0 + 5000000 + 2 * time.Minute + 30 * time.Second + 1000000 ->
                          x < 2 * time.Minute + 30 * time.Second + 6000000) by (intros; lia).
  apply Hlt, Hbound.
  - intros t. cbn. lia.
  - intros t. cbn. lia.
  - intros name namespace resource body t. cbn. lia.
  - intros r t [= <-]. cbn. lia.
Defined.
